(** * Todo application: the console model, the agent tools and the provider
    configuration, embedded and checked against their specification.

  Sources embedded here:
  - [src/models/todo.py]                       (module [TodoModel])
  - [backend/src/agent/todo_agent.py]          (modules [Prompt], [Json], [Tools])
  - [phase2-fullstack-web/backend/src/agent/config.py] (module [Config])

  Conventions.  A Python [str] is the list of its code points ([str] below,
  [len] is the length of that list).  A function that may raise returns a
  [result]; a function that reads the clock, draws a UUID, prints or calls a
  collaborator threads the state it touches explicitly. *)

From Stdlib Require Import String Ascii.
From stdpp Require Import base option list gmap.
From Stdlib Require Import ZArith NArith Lia.

Set Default Proof Using "Type".
Set Warnings "-register-all".
Open Scope list_scope.

(** ** Python strings *)

Module Py.

(** A character is a Unicode code point. *)
Definition char := N.
Definition str := list char.

Definition len (s : str) : nat := length s.

(** Truth value of a string: [bool(s)], false exactly for the empty one. *)
Definition truthy (s : str) : bool :=
  match s with
  | [] => false
  | _ :: _ => true
  end.

(** An ASCII literal of the source, character by character. *)
Fixpoint lit (s : string) : str :=
  match s with
  | EmptyString => []
  | String a rest => N_of_ascii a :: lit rest
  end.

(** The double quote character, and a literal between double quotes. *)
Definition dq : str := [34%N].
Definition quoted (s : string) : str := dq ++ lit s ++ dq.

(** [a == b] on strings. *)
Definition str_eqb (a b : str) : bool := bool_decide (a = b).

(** Exceptions raised by the embedded code. *)
Inductive exn :=
| ValueError (msg : str)
| AgentConfigError (msg : str).

(** Outcome of a call: a value, or a raised exception. *)
Inductive result (A : Type) :=
| Ok (a : A)
| Raise (e : exn).
Arguments Ok {A} a.
Arguments Raise {A} e.

Definition is_ok {A} (r : result A) : bool :=
  match r with Ok _ => true | Raise _ => false end.

(** Aware datetimes, as microseconds since the epoch. *)
Definition datetime := Z.

End Py.
Import Py.

(** ** src/models/todo.py *)

Module TodoModel.

(** The [Todo] dataclass.  [status] is annotated
    [Literal["pending", "completed"]]; at run time it is a plain [str]
    that nothing checks. *)
Record Todo := mkTodo {
  id : str;
  text : str;
  status : str;
  created_at : datetime;
  completed_at : option datetime;
  updated_at : datetime;
}.

Definition pending : str := lit "pending".
Definition completed : str := lit "completed".

Definition msg_required : str := lit "Todo text required".
Definition msg_too_long : str := lit "Todo text too long (max 200 characters)".

(** [Todo.__post_init__]: the two length checks, in source order. *)
Definition __post_init__ (self : Todo) : result unit :=
  if negb (truthy (text self)) || (len (text self) =? 0) then
    Raise (ValueError msg_required)
  else if 200 <? len (text self) then
    Raise (ValueError msg_too_long)
  else Ok tt.

(** The generated [__init__]: store the six fields, then run
    [__post_init__]; the object reaches the caller only if that returns. *)
Definition __init__ (id text status : str) (created_at : datetime)
    (completed_at : option datetime) (updated_at : datetime) : result Todo :=
  let self := mkTodo id text status created_at completed_at updated_at in
  match __post_init__ self with
  | Ok _ => Ok self
  | Raise e => Raise e
  end.

(** What [Todo.create] reads from outside: the clock and the UUID
    generator.  [clock k] is what the [k]-th call of [datetime.now(UTC)]
    returns and [uuid_source k] the 128-bit value of the [k]-th
    [uuid.uuid4()]; the two counters say how many calls were made. *)
Record World := mkWorld {
  clock : nat -> datetime;
  clock_reads : nat;
  uuid_source : nat -> N;
  uuid_draws : nat;
}.

Definition datetime_now (w : World) : datetime * World :=
  (clock w (clock_reads w),
   mkWorld (clock w) (S (clock_reads w)) (uuid_source w) (uuid_draws w)).

Definition uuid4 (w : World) : N * World :=
  (uuid_source w (uuid_draws w),
   mkWorld (clock w) (clock_reads w) (uuid_source w) (S (uuid_draws w))).

(** [str(u)] for a UUID: 32 lowercase hexadecimal digits of the 128-bit
    value, most significant first, grouped 8-4-4-4-12 with hyphens. *)
Definition hexdigit (d : N) : char :=
  if (d <? 10)%N then (48 + d)%N else (87 + d)%N.

Definition nibble (u : N) (i : nat) : N :=
  N.land (N.shiftr u (4 * N.of_nat (31 - i))) 15.

Definition hex32 (u : N) : str :=
  map (fun i => hexdigit (nibble u i)) (seq 0 32).

Definition hyphen : str := lit "-".

Definition uuid_str (u : N) : str :=
  let hex := hex32 u in
  take 8 hex ++ hyphen ++ take 4 (drop 8 hex) ++ hyphen ++
  take 4 (drop 12 hex) ++ hyphen ++ take 4 (drop 16 hex) ++ hyphen ++
  drop 20 hex.

(** [Todo.create]: read the clock once, draw a UUID, construct. *)
Definition create (text : str) (w : World) : result Todo * World :=
  let '(now, w1) := datetime_now w in
  let '(u, w2) := uuid4 w1 in
  (__init__ (uuid_str u) text pending now None now, w2).

(** The todos the module can hand out: results of the constructor and of
    the factory. *)
Inductive produced : Todo -> Prop :=
| produced_init i x s c d u t :
    __init__ i x s c d u = Ok t -> produced t
| produced_create x w t w' :
    create x w = (Ok t, w') -> produced t.

(** The bound the constructor enforces. *)
Definition text_ok (x : str) : bool := (1 <=? len x) && (len x <=? 200).

(** The shape of a UUID string. *)
Definition is_lower_hex (c : char) : bool :=
  (((48 <=? c) && (c <=? 57)) || ((97 <=? c) && (c <=? 102)))%N.

(** 36 characters: hyphens at offsets 8, 13, 18 and 23, lowercase
    hexadecimal digits elsewhere. *)
Definition is_uuid_string (s : str) : bool :=
  (len s =? 36) &&
  forallb (fun '(k, c) =>
             if (k =? 8) || (k =? 13) || (k =? 18) || (k =? 23)
             then (c =? 45)%N else is_lower_hex c)
          (zip (seq 0 36) s).

(** Values for concrete runs: a text of 101 characters, an id, a world
    whose clock and generator always return zero. *)
Definition text_101 : str := replicate 101 97%N.
Definition some_id : str := lit "550e8400-e29b-41d4-a716-446655440000".
Definition frozen_world : World := mkWorld (fun _ => 0%Z) 0 (fun _ => 0%N) 0.

End TodoModel.

(** ** backend/src/agent/todo_agent.py: the system prompt *)

Module Prompt.

(** Lines of the f-string before the two interpolated ones. *)
Definition lines_before_date : list str := [
  lit "You are a friendly and helpful todo list assistant. You help users manage their tasks through natural conversation.";
  [];
  lit "LANGUAGE: You MUST respond in the SAME LANGUAGE as the user. If user writes in Urdu, respond in Urdu. If user writes in English, respond in English.";
  [];
  lit "IMPORTANT - Current Date/Time Information:"
].

(** Lines after them, to the end of the literal (the last one ends in a blank). *)
Definition lines_after_time : list str := [
  lit "- Use this information when users mention relative dates like " ++
    quoted "tomorrow" ++ lit ", " ++ quoted "next week" ++ lit ", " ++
    quoted "coming Saturday" ++ lit ", " ++ quoted "kal" ++ lit ", " ++
    quoted "aglay haftay" ++ lit ", etc.";
  [];
  lit "Your capabilities:";
  lit "- Add new tasks (when user mentions adding, creating, remembering something)";
  lit "- List tasks (when user asks to see, show, or list tasks)";
  lit "- Complete tasks (when user says done, finished, completed, " ++
    quoted "ho gaya" ++ lit ", " ++ quoted "mukammal" ++ lit ")";
  lit "- Update tasks (when user wants to change, rename, or modify)";
  lit "- Delete tasks (when user says delete, remove, cancel, " ++
    quoted "hatao" ++ lit ", " ++ quoted "delete karo" ++ lit ", " ++
    quoted "mita do" ++ lit ")";
  [];
  lit "CRITICAL WORKFLOW for Delete/Update/Complete operations:";
  lit "1. FIRST: Call list_tasks to get tasks. The response contains " ++
    quoted "full_id" ++ lit " field - this is the UUID you MUST use.";
  lit "2. THEN: Match the user's request to the task(s) by title/description";
  lit "3. ASK FOR CONFIRMATION ONCE (only if you haven't already in this conversation)";
  lit "4. WHEN USER CONFIRMS (says " ++ quoted "yes" ++ lit ", " ++
    quoted "haan" ++ lit ", " ++ quoted "g" ++ lit ", " ++ quoted "ji" ++
    lit ", " ++ quoted "delete karo" ++ lit ", " ++ quoted "karo" ++
    lit ", " ++ quoted "do it" ++ lit ", " ++ quoted "go ahead" ++
    lit ", etc.):";
  lit "   - IMMEDIATELY call the tool (delete_task, complete_task, update_task) with the " ++
    quoted "full_id" ++ lit " value";
  lit "   - DO NOT ask for confirmation again";
  lit "   - DO NOT call list_tasks again after confirmation";
  lit "5. If user says " ++ quoted "no" ++ lit ", " ++ quoted "nahi" ++
    lit ", " ++ quoted "cancel" ++ lit ", " ++ quoted "mat karo" ++
    lit " - cancel the operation";
  [];
  lit "VERY IMPORTANT - Using Task IDs:";
  lit "- The list_tasks response has " ++ quoted "id" ++
    lit " (short) and " ++ quoted "full_id" ++ lit " (complete UUID)";
  lit "- You MUST use the " ++ quoted "full_id" ++
    lit " value when calling delete_task, complete_task, or update_task";
  lit "- Example: If list_tasks returns {" ++ quoted "id" ++ lit ": " ++
    quoted "abc12345" ++ lit ", " ++ quoted "full_id" ++ lit ": " ++
    quoted "abc12345-6789-..." ++ lit ", " ++ quoted "title" ++ lit ": " ++
    quoted "Buy milk" ++ lit "}";
  lit "  Then call delete_task with task_id=" ++
    quoted "abc12345-6789-..." ++ lit " (the full_id value)";
  [];
  lit "CONFIRMATION RECOGNITION - These ALL mean YES:";
  lit "- English: " ++ quoted "yes" ++ lit ", " ++ quoted "yeah" ++
    lit ", " ++ quoted "yep" ++ lit ", " ++ quoted "sure" ++ lit ", " ++
    quoted "ok" ++ lit ", " ++ quoted "okay" ++ lit ", " ++ quoted "do it" ++
    lit ", " ++ quoted "go ahead" ++ lit ", " ++ quoted "confirm" ++
    lit ", " ++ quoted "delete it";
  lit "- Urdu: " ++ quoted "haan" ++ lit ", " ++ quoted "han" ++ lit ", " ++
    quoted "ji" ++ lit ", " ++ quoted "g" ++ lit ", " ++ quoted "ji haan" ++
    lit ", " ++ quoted "kar do" ++ lit ", " ++ quoted "karo" ++ lit ", " ++
    quoted "delete karo" ++ lit ", " ++ quoted "hata do" ++ lit ", " ++
    quoted "theek hai";
  [];
  lit "Guidelines:";
  lit "- ONLY ask for confirmation ONCE, then act on the user's response";
  lit "- When listing tasks, format them clearly and numbered (1, 2, 3...) - don't show UUIDs to users";
  lit "- Never expose technical error details or UUIDs to users";
  lit "- Be helpful and engaging in your responses";
  lit "- Acknowledge user accomplishments and provide encouragement";
  [];
  lit "Example flow:";
  lit "1. User: " ++ quoted "delete my task";
  lit "2. You: Call list_tasks " ++ [8594%N] ++
    lit " find task with full_id=" ++ quoted "abc-123-...";
  lit "3. You: " ++ quoted "I found 'Buy groceries'. Delete it?";
  lit "4. User: " ++ quoted "yes" ++ lit " or " ++ quoted "haan" ++
    lit " or " ++ quoted "g";
  lit "5. You: IMMEDIATELY call delete_task(task_id=" ++
    quoted "abc-123-..." ++ lit ") - NO more questions!";
  lit "6. You: " ++ quoted "Done! Task deleted." ++ lit " "
].

Definition nl : str := [10%N].

(** The text whose lines are [ls]: the lines separated by newlines. *)
Fixpoint join_lines (ls : list str) : str :=
  match ls with
  | [] => []
  | [l] => l
  | l :: rest => l ++ nl ++ join_lines rest
  end.

Definition date_format : str := lit "%A, %B %d, %Y".
Definition time_format : str := lit "%I:%M %p".

Section SystemPrompt.

(** [now.strftime(fmt)], the library's formatting of a clock reading. *)
Variable strftime : datetime -> str -> str.

(** [get_system_prompt], given what [datetime.now()] returned. *)
Definition get_system_prompt (now : datetime) : str :=
  let date_str := strftime now date_format in
  let time_str := strftime now time_format in
  join_lines
    (lines_before_date ++
     [lit "- Today's date is: " ++ date_str;
      lit "- Current time is: " ++ time_str] ++
     lines_after_time).

End SystemPrompt.

(** [needle in hay] on strings. *)
Fixpoint starts_with (needle hay : str) : bool :=
  match needle, hay with
  | [], _ => true
  | _ :: _, [] => false
  | a :: n', b :: h' => (a =? b)%N && starts_with n' h'
  end.

Fixpoint contains (needle hay : str) : bool :=
  starts_with needle hay ||
  match hay with
  | [] => false
  | _ :: h' => contains needle h'
  end.

(** [needle] occurs somewhere inside [hay]. *)
Definition occurs_in (needle hay : str) : Prop :=
  exists before after, hay = before ++ needle ++ after.

(** The confirmation vocabulary the specification requires as a minimum. *)
Definition affirmative_english : list string := ["yes"; "yeah"; "ok"; "do it"]%string.
Definition affirmative_urdu : list string := ["haan"; "ji"; "karo"]%string.
Definition affirmative : list string := affirmative_english ++ affirmative_urdu.
Definition negative : list string := ["no"; "cancel"; "nahi"; "mat karo"]%string.

(** Each of [words] occurs in [text], between double quotes. *)
Definition mentions (words : list string) (text : str) : Prop :=
  Forall (fun w => occurs_in (quoted w) text) words.

(** [text] has a complete line, between two newlines, that satisfies [P]. *)
Definition has_line (text : str) (P : str -> Prop) : Prop :=
  exists l, occurs_in (nl ++ l ++ nl) text /\ ~ occurs_in nl l /\ P l.

(** The places of the prompt that carry the vocabulary. *)
Definition yes_heading : str := lit "CONFIRMATION RECOGNITION - These ALL mean YES:".
Definition english_label : str := lit "- English: ".
Definition urdu_label : str := lit "- Urdu: ".
Definition cancel_lead : str := lit "5. If user says ".
Definition cancel_tail : str := lit " - cancel the operation".

(** The part of the prompt after the two interpolated lines does not depend
    on the clock. *)
Definition fixed_tail : str := nl ++ join_lines lines_after_time.

End Prompt.

(** ** backend/src/agent/todo_agent.py: [_parse_tool_response] *)

Module Json.

(** Python values that [json.loads] can return.  A [dict] keeps its items in
    insertion order; a float is kept as the lexeme [float] was applied to. *)
Inductive pyvalue :=
| PyNone
| PyBool (b : bool)
| PyInt (z : Z)
| PyFloat (lexeme : str)
| PyStr (s : str)
| PyList (items : list pyvalue)
| PyDict (items : list (str * pyvalue)).

Definition is_dict (v : pyvalue) : bool :=
  match v with PyDict _ => true | _ => false end.

(** [d[k] = v] on a dict: an existing key keeps its place. *)
Fixpoint dict_set (d : list (str * pyvalue)) (k : str) (v : pyvalue)
  : list (str * pyvalue) :=
  match d with
  | [] => [(k, v)]
  | (k', v') :: rest =>
      if str_eqb k' k then (k, v) :: rest else (k', v') :: dict_set rest k v
  end.

(** *** The decoder of the [json] module

    [json.loads] is library code; it is modelled here after the module's
    scanner: the JSON grammar, strict strings, and the three extra constants
    [NaN], [Infinity], [-Infinity].  Interpreter limits (recursion depth,
    digits of an integer) are outside the model. *)

Definition is_ws (c : char) : bool :=
  ((c =? 32) || (c =? 9) || (c =? 10) || (c =? 13))%N.

Fixpoint skip_ws (s : str) : str :=
  match s with
  | c :: rest => if is_ws c then skip_ws rest else s
  | [] => []
  end.

Definition is_digit (c : char) : bool := ((48 <=? c) && (c <=? 57))%N.

(** The longest prefix of digits, and what follows it. *)
Fixpoint span_digits (s : str) : str * str :=
  match s with
  | c :: rest =>
      if is_digit c then
        let '(ds, r) := span_digits rest in (c :: ds, r)
      else ([], s)
  | [] => ([], [])
  end.

Definition digits_value (ds : str) : Z :=
  fold_left (fun acc c => (10 * acc + (Z.of_N c - 48))%Z) ds 0%Z.

Definition hexval (c : char) : option N :=
  if ((48 <=? c) && (c <=? 57))%N then Some (c - 48)%N
  else if ((97 <=? c) && (c <=? 102))%N then Some (c - 87)%N
  else if ((65 <=? c) && (c <=? 70))%N then Some (c - 55)%N
  else None.

Definition hex4 (a b c d : char) : option N :=
  match hexval a, hexval b, hexval c, hexval d with
  | Some x, Some y, Some z, Some w => Some (((x * 16 + y) * 16 + z) * 16 + w)%N
  | _, _, _, _ => None
  end.

Definition is_high_surrogate (u : N) : bool := ((55296 <=? u) && (u <=? 56319))%N.
Definition is_low_surrogate (u : N) : bool := ((56320 <=? u) && (u <=? 57343))%N.

Definition join_surrogates (hi lo : N) : N :=
  (65536 + N.lor (N.shiftl (hi - 55296) 10) (lo - 56320))%N.

(** The character a one-letter escape stands for. *)
Definition backslash (c : char) : option char :=
  if (c =? 34)%N then Some 34%N          (* quote *)
  else if (c =? 92)%N then Some 92%N     (* backslash *)
  else if (c =? 47)%N then Some 47%N     (* slash *)
  else if (c =? 98)%N then Some 8%N      (* b *)
  else if (c =? 102)%N then Some 12%N    (* f *)
  else if (c =? 110)%N then Some 10%N    (* n *)
  else if (c =? 114)%N then Some 13%N    (* r *)
  else if (c =? 116)%N then Some 9%N     (* t *)
  else None.

(** [scanstring], entered after the opening quote: the decoded string and
    the input after the closing quote, or [None] for a decode error. *)
Fixpoint scanstring (s : str) (acc : str) : option (str * str) :=
  match s with
  | [] => None
  | c :: rest =>
      if (c =? 34)%N then Some (acc, rest)
      else if (c =? 92)%N then
        match rest with
        | [] => None
        | e :: rest1 =>
            if (e =? 117)%N then
              match rest1 with
              | a :: b :: c' :: d :: rest2 =>
                  match hex4 a b c' d with
                  | None => None
                  | Some uni =>
                      match rest2 with
                      | bs :: u :: a2 :: b2 :: c2 :: d2 :: rest3 =>
                          if is_high_surrogate uni && (bs =? 92)%N && (u =? 117)%N
                          then
                            match hex4 a2 b2 c2 d2 with
                            | Some uni2 =>
                                if is_low_surrogate uni2
                                then scanstring rest3
                                       (acc ++ [join_surrogates uni uni2])
                                else scanstring rest2 (acc ++ [uni])
                            | None => None
                            end
                          else scanstring rest2 (acc ++ [uni])
                      | _ => scanstring rest2 (acc ++ [uni])
                      end
                  end
              | _ => None
              end
            else
              match backslash e with
              | Some ch => scanstring rest1 (acc ++ [ch])
              | None => None
              end
        end
      else if (c <? 32)%N then None
      else scanstring rest (acc ++ [c])
  end.

(** The number lexeme at the head of [s], as the scanner's pattern matches
    it: sign and integer part, then the optional fraction and exponent. *)
Definition match_integer (s : str) : option (str * str) :=
  let '(sign, s1) :=
    match s with
    | 45%N :: r => ([45%N], r)
    | _ => ([], s)
    end in
  match s1 with
  | 48%N :: r => Some (sign ++ [48%N], r)
  | c :: _ =>
      if is_digit c then
        let '(ds, r) := span_digits s1 in Some (sign ++ ds, r)
      else None
  | [] => None
  end.

Definition match_frac (s : str) : str * str :=
  match s with
  | 46%N :: r =>
      match span_digits r with
      | ([], _) => ([], s)
      | (ds, r') => (46%N :: ds, r')
      end
  | _ => ([], s)
  end.

Definition match_exp (s : str) : str * str :=
  match s with
  | e :: r =>
      if ((e =? 101) || (e =? 69))%N then
        let '(sign, r1) :=
          match r with
          | c :: r' => if ((c =? 45) || (c =? 43))%N then ([c], r') else ([], r)
          | [] => ([], r)
          end in
        match span_digits r1 with
        | ([], _) => ([], s)
        | (ds, r') => (e :: sign ++ ds, r')
        end
      else ([], s)
  | [] => ([], s)
  end.

Definition parse_int (lexeme : str) : Z :=
  match lexeme with
  | 45%N :: ds => (- digits_value ds)%Z
  | ds => digits_value ds
  end.

Definition match_number (s : str) : option (pyvalue * str) :=
  match match_integer s with
  | None => None
  | Some (integer, r) =>
      let '(frac, r1) := match_frac r in
      let '(exp, r2) := match_exp r1 in
      if truthy frac || truthy exp
      then Some (PyFloat (integer ++ frac ++ exp), r2)
      else Some (PyInt (parse_int integer), r2)
  end.

(** [s] starts with the literal [w]: what is left after it. *)
Fixpoint strip_prefix (w s : str) : option str :=
  match w, s with
  | [], _ => Some s
  | a :: w', b :: s' => if (a =? b)%N then strip_prefix w' s' else None
  | _ :: _, [] => None
  end.

Definition scan_constant (s : str) : option (pyvalue * str) :=
  match strip_prefix (lit "null") s with
  | Some r => Some (PyNone, r)
  | None =>
  match strip_prefix (lit "true") s with
  | Some r => Some (PyBool true, r)
  | None =>
  match strip_prefix (lit "false") s with
  | Some r => Some (PyBool false, r)
  | None =>
  match match_number s with
  | Some res => Some res
  | None =>
  match strip_prefix (lit "NaN") s with
  | Some r => Some (PyFloat (lit "NaN"), r)
  | None =>
  match strip_prefix (lit "Infinity") s with
  | Some r => Some (PyFloat (lit "Infinity"), r)
  | None =>
  match strip_prefix (lit "-Infinity") s with
  | Some r => Some (PyFloat (lit "-Infinity"), r)
  | None => None
  end end end end end end end.

(** [scan_once] with the array and object loops it calls.  Every call
    consumes input before it recurses, so fuel past twice the length of the
    input is never used up. *)
Fixpoint scan_once (fuel : nat) (s : str) : option (pyvalue * str) :=
  match fuel with
  | O => None
  | S fuel' =>
      match s with
      | [] => None
      | c :: rest =>
          if (c =? 34)%N then
            match scanstring rest [] with
            | Some (v, r) => Some (PyStr v, r)
            | None => None
            end
          else if (c =? 123)%N then          (* opening brace *)
            match skip_ws rest with
            | c1 :: r1 =>
                if (c1 =? 125)%N then Some (PyDict [], r1)
                else if (c1 =? 34)%N then object_loop fuel' r1 []
                else None
            | [] => None
            end
          else if (c =? 91)%N then           (* opening bracket *)
            match skip_ws rest with
            | c1 :: r1 =>
                if (c1 =? 93)%N then Some (PyList [], r1)
                else array_loop fuel' (c1 :: r1) []
            | [] => None
            end
          else scan_constant s
      end
  end
with array_loop (fuel : nat) (s : str) (values : list pyvalue)
  : option (pyvalue * str) :=
  match fuel with
  | O => None
  | S fuel' =>
      match scan_once fuel' s with
      | None => None
      | Some (value, r) =>
          match skip_ws r with
          | c :: r1 =>
              if (c =? 93)%N then Some (PyList (values ++ [value]), r1)
              else if (c =? 44)%N
              then array_loop fuel' (skip_ws r1) (values ++ [value])
              else None
          | [] => None
          end
      end
  end
with object_loop (fuel : nat) (s : str) (pairs : list (str * pyvalue))
  : option (pyvalue * str) :=
  match fuel with
  | O => None
  | S fuel' =>
      match scanstring s [] with
      | None => None
      | Some (key, r) =>
          match skip_ws r with
          | c :: r1 =>
              if (c =? 58)%N then            (* colon *)
                match scan_once fuel' (skip_ws r1) with
                | None => None
                | Some (value, r2) =>
                    match skip_ws r2 with
                    | c2 :: r3 =>
                        if (c2 =? 125)%N
                        then Some (PyDict (dict_set pairs key value), r3)
                        else if (c2 =? 44)%N then
                          match skip_ws r3 with
                          | c3 :: r4 =>
                              if (c3 =? 34)%N
                              then object_loop fuel' r4 (dict_set pairs key value)
                              else None
                          | [] => None
                          end
                        else None
                    | [] => None
                    end
                end
              else None
          | [] => None
          end
      end
  end.

(** What a call of [json.loads] does: return a value or raise
    [json.JSONDecodeError]. *)
Inductive loads_outcome :=
| Decoded (v : pyvalue)
| JSONDecodeError.

Definition bom : char := 65279%N.

Definition json_loads (s : str) : loads_outcome :=
  match s with
  | c :: _ => if (c =? bom)%N then JSONDecodeError else
      match scan_once (2 * length s + 2) (skip_ws s) with
      | Some (obj, r) =>
          match skip_ws r with
          | [] => Decoded obj
          | _ :: _ => JSONDecodeError
          end
      | None => JSONDecodeError
      end
  | [] => JSONDecodeError
  end.

(** The dict the [except] branch builds. *)
Definition failure (response_text : str) : pyvalue :=
  PyDict [(lit "success", PyBool false);
          (lit "error", PyDict [(lit "message", PyStr response_text)])].

(** [_parse_tool_response]: the decoded value, or the failure dict when
    [json.loads] raised [JSONDecodeError]. *)
Definition _parse_tool_response (response_text : str) : pyvalue :=
  match json_loads response_text with
  | Decoded v => v
  | JSONDecodeError => failure response_text
  end.

End Json.

(** ** backend/src/agent/todo_agent.py: the five tools *)

Module Tools.

Section Tools.

(** The database session of [sqlmodel] and [uuid.UUID], both opaque to the
    tools, and the exceptions a handler may raise. *)
Variables (Session UUID Exc : Type).

(** [AgentContext] and the [RunContextWrapper] that carries it. *)
Record AgentContext := mkAgentContext {
  session : Session;
  user_id : UUID;
}.

Record RunContextWrapper := mkRunContextWrapper {
  context : AgentContext;
}.

(** An item of a handler's result; only its [text] is read. *)
Record TextContent := mkTextContent {
  text : str;
}.

(** A call of one of the five handlers imported from [..mcp.tools], with
    the keyword arguments it is given. *)
Inductive Call :=
| add_task (session : Session) (user_id : UUID) (title description : str)
| list_tasks (session : Session) (user_id : UUID) (filter : str)
| complete_task (session : Session) (user_id : UUID) (task_id : str)
| update_task (session : Session) (user_id : UUID) (task_id title : str)
    (description : option str)
| delete_task (session : Session) (user_id : UUID) (task_id : str).

(** The user a call is made for. *)
Definition call_user (c : Call) : UUID :=
  match c with
  | add_task _ u _ _ => u
  | list_tasks _ u _ => u
  | complete_task _ u _ => u
  | update_task _ u _ _ _ => u
  | delete_task _ u _ => u
  end.

Definition call_session (c : Call) : Session :=
  match c with
  | add_task s _ _ _ => s
  | list_tasks s _ _ => s
  | complete_task s _ _ => s
  | update_task s _ _ _ _ => s
  | delete_task s _ _ => s
  end.

(** The handlers are not among the sources: they are a parameter.  [Store]
    is whatever they act on; a handler returns content items or raises. *)
Variable Store : Type.
Variable handlers : Call -> Store -> (list TextContent + Exc) * Store.

(** What a tool touches: the store behind the handlers, the calls made so
    far (oldest first) and the lines printed. *)
Record World := mkWorld {
  store : Store;
  calls : list Call;
  stdout : list str;
}.

(** Computations of the tools: state passing, stopping at an exception. *)
Definition M (A : Type) : Type := World -> (A + Exc) * World.

Definition ret {A} (a : A) : M A := fun w => (inl a, w).

Definition bind {A B} (m : M A) (k : A -> M B) : M B :=
  fun w =>
    match m w with
    | (inl a, w') => k a w'
    | (inr e, w') => (inr e, w')
    end.

Notation "x <- m ;; k" := (bind m (fun x => k))
  (at level 100, m at next level, right associativity).
Notation "m ;; k" := (bind m (fun _ => k))
  (at level 100, right associativity).

(** [await handler(...)]: run the handler on the store and record the call. *)
Definition await (c : Call) : M (list TextContent) :=
  fun w =>
    let '(r, st) := handlers c (store w) in
    (r, mkWorld st (calls w ++ [c]) (stdout w)).

Definition print (line : str) : M unit :=
  fun w => (inl tt, mkWorld (store w) (calls w) (stdout w ++ [line])).

(** [result[0].text if result else fallback] *)
Definition text_or (result : list TextContent) (fallback : str) : str :=
  match result with
  | first :: _ => text first
  | [] => fallback
  end.

Definition tool_add_task (ctx : RunContextWrapper) (title description : str)
  : M str :=
  result <- await (add_task (session (context ctx)) (user_id (context ctx))
                     title description) ;;
  ret (text_or result (lit "Failed to add task")).

Definition tool_list_tasks (ctx : RunContextWrapper) (filter : str) : M str :=
  result <- await (list_tasks (session (context ctx)) (user_id (context ctx))
                     filter) ;;
  let response := text_or result (lit "Failed to list tasks") in
  print (lit "[DEBUG] tool_list_tasks response: " ++ response) ;;
  ret response.

Definition tool_complete_task (ctx : RunContextWrapper) (task_id : str)
  : M str :=
  result <- await (complete_task (session (context ctx))
                     (user_id (context ctx)) task_id) ;;
  ret (text_or result (lit "Failed to complete task")).

Definition tool_update_task (ctx : RunContextWrapper) (task_id title : str)
    (description : option str) : M str :=
  result <- await (update_task (session (context ctx)) (user_id (context ctx))
                     task_id title description) ;;
  ret (text_or result (lit "Failed to update task")).

Definition tool_delete_task (ctx : RunContextWrapper) (task_id : str)
  : M str :=
  print (lit "[DEBUG] tool_delete_task called with task_id: " ++ task_id) ;;
  result <- await (delete_task (session (context ctx)) (user_id (context ctx))
                     task_id) ;;
  let response := text_or result (lit "Failed to delete task") in
  print (lit "[DEBUG] tool_delete_task response: " ++ response) ;;
  ret response.

(** Defaults of the optional parameters. *)
Definition default_description : str := [].
Definition default_filter : str := lit "all".

(** A request to one of the tools, as the agent runtime issues it from
    [TODO_TOOLS]: which tool, with which arguments. *)
Inductive Request :=
| AddReq (title description : str)
| ListReq (filter : str)
| CompleteReq (task_id : str)
| UpdateReq (task_id title : str) (description : option str)
| DeleteReq (task_id : str).

Definition run_tool (ctx : RunContextWrapper) (r : Request) : M str :=
  match r with
  | AddReq title description => tool_add_task ctx title description
  | ListReq filter => tool_list_tasks ctx filter
  | CompleteReq task_id => tool_complete_task ctx task_id
  | UpdateReq task_id title description =>
      tool_update_task ctx task_id title description
  | DeleteReq task_id => tool_delete_task ctx task_id
  end.

(** The handler call a request stands for under a context. *)
Definition forwarded (ctx : RunContextWrapper) (r : Request) : Call :=
  let s := session (context ctx) in
  let u := user_id (context ctx) in
  match r with
  | AddReq title description => add_task s u title description
  | ListReq filter => list_tasks s u filter
  | CompleteReq task_id => complete_task s u task_id
  | UpdateReq task_id title description =>
      update_task s u task_id title description
  | DeleteReq task_id => delete_task s u task_id
  end.

Definition fallback (r : Request) : str :=
  match r with
  | AddReq _ _ => lit "Failed to add task"
  | ListReq _ => lit "Failed to list tasks"
  | CompleteReq _ => lit "Failed to complete task"
  | UpdateReq _ _ _ => lit "Failed to update task"
  | DeleteReq _ => lit "Failed to delete task"
  end.

(** What a tool returns for the handler's outcome: the text of the first
    item, the tool's fixed message when there is no item, the handler's
    exception when it raised. *)
Definition returned (r : Request) (res : list TextContent + Exc) : str + Exc :=
  match res with
  | inl result => inl (text_or result (fallback r))
  | inr e => inr e
  end.

(** The debugging lines two of the tools print around the call. *)
Definition printed (r : Request) (res : list TextContent + Exc) : list str :=
  match r with
  | ListReq _ =>
      match res with
      | inl result =>
          [lit "[DEBUG] tool_list_tasks response: " ++ text_or result (fallback r)]
      | inr _ => []
      end
  | DeleteReq task_id =>
      (lit "[DEBUG] tool_delete_task called with task_id: " ++ task_id) ::
      match res with
      | inl result =>
          [lit "[DEBUG] tool_delete_task response: " ++ text_or result (fallback r)]
      | inr _ => []
      end
  | _ => []
  end.

End Tools.

Arguments mkAgentContext {Session UUID}.
Arguments session {Session UUID}.
Arguments user_id {Session UUID}.
Arguments mkRunContextWrapper {Session UUID}.
Arguments context {Session UUID}.
Arguments add_task {Session UUID}.
Arguments list_tasks {Session UUID}.
Arguments complete_task {Session UUID}.
Arguments update_task {Session UUID}.
Arguments delete_task {Session UUID}.
Arguments call_user {Session UUID}.
Arguments call_session {Session UUID}.
Arguments mkWorld {Session UUID Store}.
Arguments store {Session UUID Store}.
Arguments calls {Session UUID Store}.
Arguments stdout {Session UUID Store}.
Arguments tool_add_task {Session UUID Exc Store}.
Arguments tool_list_tasks {Session UUID Exc Store}.
Arguments tool_complete_task {Session UUID Exc Store}.
Arguments tool_update_task {Session UUID Exc Store}.
Arguments tool_delete_task {Session UUID Exc Store}.
Arguments run_tool {Session UUID Exc Store}.
Arguments forwarded {Session UUID}.
Arguments returned {Exc}.
Arguments printed {Exc}.

(** A handler set for concrete runs: sessions and users are numbers, the
    store is the list of titles added.  [add_task] refuses an empty title
    with a message and leaves the store alone, as the tools' docstrings
    announce for titles outside 1 to 100 characters. *)
Definition refusal : str := lit "Title is required".

Definition checking_handlers (c : Call nat nat) (st : list str)
  : (list TextContent + Empty_set) * list str :=
  match c with
  | add_task _ _ title _ =>
      if truthy title then (inl [mkTextContent (lit "Task added")], st ++ [title])
      else (inl [mkTextContent refusal], st)
  | _ => (inl [], st)
  end.

Definition alice : RunContextWrapper nat nat :=
  mkRunContextWrapper (mkAgentContext 1 7).

Definition fresh_world : World nat nat (list str) := mkWorld [] [] [].

End Tools.

(** ** phase2-fullstack-web/backend/src/agent/config.py *)

Module Config.

Definition GEMINI_BASE_URL : str :=
  lit "https://generativelanguage.googleapis.com/v1beta/openai/".
Definition GEMINI_DEFAULT_MODEL : str := lit "gemini-2.5-flash".

Definition AI_PROVIDER : str := lit "AI_PROVIDER".
Definition GEMINI_API_KEY : str := lit "GEMINI_API_KEY".
Definition OPENAI_API_KEY : str := lit "OPENAI_API_KEY".
Definition GEMINI_MODEL : str := lit "GEMINI_MODEL".
Definition OPENAI_MODEL : str := lit "OPENAI_MODEL".

Definition gemini : str := lit "gemini".
Definition openai : str := lit "openai".

Definition msg_gemini_key : str :=
  lit "GEMINI_API_KEY environment variable is not set.".
Definition msg_openai_key : str :=
  lit "OPENAI_API_KEY environment variable is not set.".

(** [os.environ]: a mapping from names to values. *)
Abbreviation environ := (gmap str str).

(** [os.environ.get(name)] and [os.environ.get(name, default)]. *)
Definition get (env : environ) (name : str) : option str := env !! name.

Definition get_or (env : environ) (name default : str) : str :=
  match get env name with
  | Some v => v
  | None => default
  end.

(** Truth value of [os.environ.get(name)]: [None] and the empty string are
    both false. *)
Definition truthy_opt (o : option str) : bool :=
  match o with
  | Some v => truthy v
  | None => false
  end.

(** The client the configuration builds: [AsyncOpenAI(api_key=...,
    base_url=...)], with [base_url] absent for OpenAI itself. *)
Record AsyncOpenAI := mkAsyncOpenAI {
  api_key : str;
  base_url : option str;
}.

Section Config.

(** [str.lower] of the Python runtime. *)
Variable lower : str -> str.

Definition _detect_provider (env : environ) : str :=
  let provider := lower (get_or env AI_PROVIDER []) in
  if truthy provider then provider
  else if truthy_opt (get env GEMINI_API_KEY) then gemini
  else if truthy_opt (get env OPENAI_API_KEY) then openai
  else gemini.

Definition _get_default_model (env : environ) : str :=
  let provider := _detect_provider env in
  if str_eqb provider gemini then get_or env GEMINI_MODEL GEMINI_DEFAULT_MODEL
  else get_or env OPENAI_MODEL (lit "gpt-4o").

Definition get_api_client (env : environ) : result AsyncOpenAI :=
  let provider := _detect_provider env in
  if str_eqb provider gemini then
    match get env GEMINI_API_KEY with
    | Some key =>
        if truthy key then Ok (mkAsyncOpenAI key (Some GEMINI_BASE_URL))
        else Raise (AgentConfigError msg_gemini_key)
    | None => Raise (AgentConfigError msg_gemini_key)
    end
  else
    match get env OPENAI_API_KEY with
    | Some key =>
        if truthy key then Ok (mkAsyncOpenAI key None)
        else Raise (AgentConfigError msg_openai_key)
    | None => Raise (AgentConfigError msg_openai_key)
    end.

End Config.

(** A variable is set when it is present with a non-empty value: the sense
    in which the module's own messages say "is not set". *)
Definition is_set (env : environ) (name : str) : Prop :=
  exists v, get env name = Some v /\ v <> [].

(** [str.lower] on ASCII text: the letters A to Z move to a to z. *)
Definition ascii_lower_char (c : char) : char :=
  if ((65 <=? c) && (c <=? 90))%N then (c + 32)%N else c.
Definition ascii_lower (s : str) : str := map ascii_lower_char s.

(** Environments for concrete runs. *)
Definition env_openai_only : environ := {[ OPENAI_API_KEY := lit "sk-test" ]}.
Definition env_explicit : environ :=
  {[ AI_PROVIDER := lit "OpenAI"; GEMINI_API_KEY := lit "g-test" ]}.

End Config.

(** ** The task store, from the specification *)

Module Store.

(** Modelled from the spec: the task record of the store behind the tools
    (section 3, Task), whose code ([..mcp.tools], the ORM model) is not
    among the sources.  Only the fields the store's [complete] is said to
    read or change are kept. *)
Record Task := mkTask {
  task_id : str;
  owner : N;
  title : str;
  description : str;
  completed : bool;
}.

Inductive Error :=
| NotFoundError.

Definition toggled (t : Task) : Task :=
  mkTask (task_id t) (owner t) (title t) (description t) (negb (completed t)).

Definition refers (o : N) (tid : str) (t : Task) : bool :=
  str_eqb (task_id t) tid && (owner t =? o)%N.

(** Modelled from the spec: [complete(owner, taskId) -> Result<Task, Error>]
    "(toggles completion)" of section 6, for the absent [complete_task]:
    the task with that identifier that [owner] owns has its completion flag
    flipped in the store and is returned; no such task is [NotFoundError]. *)
Fixpoint complete (o : N) (tid : str) (tasks : list Task)
  : (Task + Error) * list Task :=
  match tasks with
  | [] => (inr NotFoundError, [])
  | t :: rest =>
      if refers o tid t then (inl (toggled t), toggled t :: rest)
      else
        let '(r, rest') := complete o tid rest in (r, t :: rest')
  end.

(** The task [owner] refers to by [tid], if any. *)
Definition find (o : N) (tid : str) (tasks : list Task) : option Task :=
  List.find (refers o tid) tasks.

(** A store of two users for concrete runs. *)
Definition milk : Task := mkTask (lit "a1") 7 (lit "Buy milk") [] false.
Definition mom : Task := mkTask (lit "b2") 7 (lit "Call mom") [] true.
Definition other : Task := mkTask (lit "c3") 8 (lit "Pay rent") [] false.
Definition sample_store : list Task := [milk; other; mom].

End Store.

(** ** config.py: [AgentConfig] and [get_agent_config] *)

Module AgentConfigModel.
Import Config.

Section AgentConfig.

Variable lower : str -> str.

(** Python floats are left abstract: [float] is their type and
    [default_temperature] the value of the literal [0.3]. *)
Variable float : Type.
Variable default_temperature : float.

Record AgentConfig := mkAgentConfig {
  model : str;
  max_tokens : Z;
  temperature : float;
  history_limit : Z;
  provider : str;
}.

(** [AgentConfig.__post_init__]: an empty provider is detected, then an
    empty model is replaced by the default model. *)
Definition __post_init__ (env : environ) (self : AgentConfig) : AgentConfig :=
  let self1 :=
    if negb (truthy (provider self)) then
      mkAgentConfig (model self) (max_tokens self) (temperature self)
        (history_limit self) (_detect_provider lower env)
    else self in
  if negb (truthy (model self1)) then
    mkAgentConfig (_get_default_model lower env) (max_tokens self1)
      (temperature self1) (history_limit self1) (provider self1)
  else self1.

(** The generated [__init__], and [AgentConfig()] with every default. *)
Definition __init__ (env : environ) (model : str) (max_tokens : Z)
    (temperature : float) (history_limit : Z) (provider : str) : AgentConfig :=
  __post_init__ env
    (mkAgentConfig model max_tokens temperature history_limit provider).

Definition default_config (env : environ) : AgentConfig :=
  __init__ env [] 1024 default_temperature 50 [].

(** [get_agent_config]: the default configuration, then each override that
    is not [None] assigned over it.  The parameters [model], [max_tokens],
    [temperature] and [history_limit] are written [new_model] and so on. *)
Definition get_agent_config (env : environ) (new_model : option str)
    (new_max_tokens : option Z) (new_temperature : option float)
    (new_history_limit : option Z) : AgentConfig :=
  let config := default_config env in
  let config :=
    match new_model with
    | Some m => mkAgentConfig m (max_tokens config) (temperature config)
                  (history_limit config) (provider config)
    | None => config
    end in
  let config :=
    match new_max_tokens with
    | Some n => mkAgentConfig (model config) n (temperature config)
                  (history_limit config) (provider config)
    | None => config
    end in
  let config :=
    match new_temperature with
    | Some t => mkAgentConfig (model config) (max_tokens config) t
                  (history_limit config) (provider config)
    | None => config
    end in
  match new_history_limit with
  | Some h => mkAgentConfig (model config) (max_tokens config)
                (temperature config) h (provider config)
  | None => config
  end.

End AgentConfig.

Arguments mkAgentConfig {float}.
Arguments model {float}.
Arguments max_tokens {float}.
Arguments temperature {float}.
Arguments history_limit {float}.
Arguments provider {float}.
Arguments __post_init__ lower {float}.
Arguments __init__ lower {float}.
Arguments default_config lower {float}.
Arguments get_agent_config lower {float}.

(** The variable that holds the API key, and the one that names the model,
    for a provider: everything that is not "gemini" is served as OpenAI. *)
Definition key_variable (provider : str) : str :=
  if str_eqb provider gemini then GEMINI_API_KEY else OPENAI_API_KEY.

Definition model_variable (provider : str) : str :=
  if str_eqb provider gemini then GEMINI_MODEL else OPENAI_MODEL.

Definition key_message (provider : str) : str :=
  if str_eqb provider gemini then msg_gemini_key else msg_openai_key.

(** Environments for concrete runs. *)
Definition env_gemini_only : environ := {[ GEMINI_API_KEY := lit "g-test" ]}.
Definition env_empty_model : environ :=
  {[ GEMINI_API_KEY := lit "g-test"; GEMINI_MODEL := [] ]}.

End AgentConfigModel.

(** ** Several tool invocations under one context *)

Module ToolRuns.
Import Tools.

Section Runs.

Context {Session UUID Exc Store : Type}.
Variable handlers :
  Call Session UUID -> Store -> (list TextContent + Exc) * Store.

(** The requests of one agent run, served one after the other under the
    same context; each outcome (a text or an exception) is kept. *)
Fixpoint run_tools (ctx : RunContextWrapper Session UUID) (rs : list Request)
    (w : World Session UUID Store)
  : list (str + Exc) * World Session UUID Store :=
  match rs with
  | [] => ([], w)
  | r :: rest =>
      let '(out, w1) := run_tool handlers ctx r w in
      let '(outs, w2) := run_tools ctx rest w1 in
      (out :: outs, w2)
  end.

End Runs.

(** Handlers for concrete runs.  The first refuses every call by raising;
    the second answers every call with two content items. *)
Definition raising_handlers (c : Call nat nat) (st : list str)
  : (list TextContent + str) * list str :=
  (inr (lit "database is down"), st).

Definition two_item_handlers (c : Call nat nat) (st : list str)
  : (list TextContent + str) * list str :=
  (inl [mkTextContent (lit "first"); mkTextContent (lit "second")], st).

Definition alice_world : World nat nat (list str) := mkWorld [] [] [].

End ToolRuns.

(** ** The frame of the system prompt *)

Module PromptFrame.
Import Prompt.

(** The text before the formatted date, and between date and time; the
    text after the time is [fixed_tail]. *)
Definition fixed_head : str :=
  join_lines lines_before_date ++ nl ++ lit "- Today's date is: ".
Definition fixed_middle : str := nl ++ lit "- Current time is: ".

(** The instructions of the prompt on confirmations and identifiers. *)
Definition ask_once : str :=
  lit "3. ASK FOR CONFIRMATION ONCE (only if you haven't already in this conversation)".
Definition no_second_question : str := lit "   - DO NOT ask for confirmation again".
Definition no_second_listing : str :=
  lit "   - DO NOT call list_tasks again after confirmation".
Definition use_full_id : str :=
  lit "- You MUST use the " ++ quoted "full_id" ++
  lit " value when calling delete_task, complete_task, or update_task".

End PromptFrame.

(** ** What the unit tests of the Todo model observe *)

Module TodoTests.
Import TodoModel.

(** [s.count(c)] for a one-character [c]. *)
Fixpoint count (c : char) (s : str) : nat :=
  match s with
  | [] => 0
  | a :: rest => (if (a =? c)%N then 1 else 0) + count c rest
  end.

(** The three steps of [test_todo_factory_sets_timestamps]: read the clock,
    create, read the clock again. *)
Definition timed_create (text : str) (w : World)
  : datetime * result Todo * datetime * World :=
  let '(before, w1) := datetime_now w in
  let '(todo, w2) := create text w1 in
  let '(after, w3) := datetime_now w2 in
  (before, todo, after, w3).

(** A clock that never runs backwards. *)
Definition monotone (w : World) : Prop :=
  forall j k, j <= k -> (clock w j <= clock w k)%Z.

(** The digits of a UUID string, with the four hyphens taken out. *)
Definition digits_of (s : str) : str :=
  take 8 s ++ take 4 (drop 9 s) ++ take 4 (drop 14 s) ++
  take 4 (drop 19 s) ++ drop 24 s.

(** A world for concrete runs: the clock ticks by one, the generator counts
    up from zero. *)
Definition counting_world : World :=
  mkWorld (fun k => Z.of_nat k) 0 (fun k => N.of_nat k) 0.

End TodoTests.

(** ** Shapes of the text given to [_parse_tool_response] *)

Module JsonShapes.
Import Json.

(** Only blanks, or nothing at all. *)
Definition blank (s : str) : bool := forallb is_ws s.

(** The characters the scanner accepts as the first one of a value: the
    double quote, the opening brace and bracket, the minus sign, a digit,
    and the first letters of null, true, false, NaN and Infinity. *)
Definition value_start (c : char) : bool :=
  ((c =? 34) || (c =? 123) || (c =? 91) || (c =? 45) || is_digit c ||
   (c =? 110) || (c =? 116) || (c =? 102) || (c =? 78) || (c =? 73))%N.

(** The first character that is not a blank, if there is one. *)
Definition first_char (s : str) : option char := head (skip_ws s).

(** The text may be JSON as far as its first character tells. *)
Definition may_be_json (s : str) : bool :=
  match first_char s with
  | Some c => value_start c
  | None => false
  end.

Definition opening_brace : char := 123%N.

End JsonShapes.

(** * Properties *)

(** ** Strings *)

Module PyFacts.

Lemma str_eqb_eq a b : str_eqb a b = true <-> a = b.
Proof. unfold str_eqb. apply bool_decide_eq_true. Qed.

Lemma truthy_true s : truthy s = true <-> s <> [].
Proof. destruct s; simpl; split; congruence. Qed.

Lemma truthy_false s : truthy s = false <-> s = [].
Proof. destruct s; simpl; split; congruence. Qed.

Lemma truthy_len s : truthy s = negb (len s =? 0).
Proof. by destruct s. Qed.

End PyFacts.
Import PyFacts.

(** ** The Todo model *)

Module TodoFacts.
Import TodoModel.

Lemma len_zero_nil (x : str) : len x = 0 <-> x = [].
Proof. unfold len. destruct x; simpl; split; (congruence || lia). Qed.

(** The constructor succeeds exactly on texts within the bound, and says
    which check failed otherwise. *)
Lemma init_cases i x s c d u :
  __init__ i x s c d u =
    if len x =? 0 then Raise (ValueError msg_required)
    else if 200 <? len x then Raise (ValueError msg_too_long)
    else Ok (mkTodo i x s c d u).
Proof.
  unfold __init__, __post_init__; simpl.
  rewrite truthy_len, negb_involutive, orb_diag.
  destruct (len x =? 0); [done|].
  by destruct (200 <? len x).
Qed.

Lemma text_ok_spec x : text_ok x = true <-> 1 <= len x <= 200.
Proof.
  unfold text_ok. rewrite andb_true_iff, !Nat.leb_le. tauto.
Qed.

Lemma init_ok i x s c d u :
  1 <= len x <= 200 -> __init__ i x s c d u = Ok (mkTodo i x s c d u).
Proof.
  intros [Hlo Hhi]. rewrite init_cases.
  destruct (Nat.eqb_spec (len x) 0); [lia|].
  destruct (Nat.ltb_spec 200 (len x)); [lia|done].
Qed.

Lemma init_inv i x s c d u t :
  __init__ i x s c d u = Ok t ->
  t = mkTodo i x s c d u /\ 1 <= len x <= 200.
Proof.
  rewrite init_cases.
  destruct (Nat.eqb_spec (len x) 0); [done|].
  destruct (Nat.ltb_spec 200 (len x)); [done|].
  intros [= <-]. split; [done|lia].
Qed.

Lemma init_rejects i x s c d u :
  ~ (1 <= len x <= 200) ->
  __init__ i x s c d u =
    Raise (ValueError (if len x =? 0 then msg_required else msg_too_long)).
Proof.
  intros Hbad. rewrite init_cases.
  destruct (Nat.eqb_spec (len x) 0); [done|].
  destruct (Nat.ltb_spec 200 (len x)); [done|lia].
Qed.

(** What [create] does to the world, whatever the text. *)
Lemma create_unfold x w :
  create x w =
    (__init__ (uuid_str (uuid_source w (uuid_draws w))) x pending
       (clock w (clock_reads w)) None (clock w (clock_reads w)),
     mkWorld (clock w) (S (clock_reads w)) (uuid_source w) (S (uuid_draws w))).
Proof. reflexivity. Qed.

Lemma produced_bound t : produced t -> 1 <= len (text t) <= 200.
Proof.
  intros [i x s c d u t' H | x w t' w' H].
  - apply init_inv in H as [-> ?]. done.
  - rewrite create_unfold in H. injection H as H _.
    apply init_inv in H as [-> ?]. done.
Qed.

(** *** The shape of a UUID string *)

Lemma nibble_lt u i : (nibble u i < 16)%N.
Proof.
  unfold nibble. change 15%N with (N.ones 4).
  rewrite N.land_ones. apply N.mod_lt. done.
Qed.

Lemma hexdigit_lower_hex d : (d < 16)%N -> is_lower_hex (hexdigit d) = true.
Proof.
  intros Hd. unfold hexdigit, is_lower_hex.
  destruct (N.ltb_spec d 10).
  - apply orb_true_iff. left. apply andb_true_iff. split; apply N.leb_le; lia.
  - apply orb_true_iff. right. apply andb_true_iff. split; apply N.leb_le; lia.
Qed.

Lemma uuid_str_shape u : is_uuid_string (uuid_str u) = true.
Proof.
  unfold is_uuid_string, uuid_str, hex32.
  cbn [seq map take drop app hyphen lit len length zip zip_with forallb
       Nat.eqb orb andb N_of_ascii N.eqb Pos.eqb].
  rewrite !hexdigit_lower_hex by apply nibble_lt.
  reflexivity.
Qed.

(** *** The bound on the text *)

(** C1, as the specification words it (a bound of 100 characters on every
    existing Todo), fails: the constructor accepts a text of 101
    characters, so a Todo with a text longer than 100 characters exists. *)
Lemma todo_text_over_100_exists :
  exists t, __init__ some_id text_101 pending 0%Z None 0%Z = Ok t /\
            produced t /\ len (text t) = 101 /\ ~ len (text t) <= 100.
Proof.
  exists (mkTodo some_id text_101 pending 0%Z None 0%Z).
  assert (H : __init__ some_id text_101 pending 0%Z None 0%Z
              = Ok (mkTodo some_id text_101 pending 0%Z None 0%Z))
    by reflexivity.
  split; [exact H|]. split; [exact (produced_init _ _ _ _ _ _ _ H)|].
  split; [reflexivity|]. vm_compute. lia.
Qed.

(** C1 (amended: the bound is 200): every Todo the constructor or
    [Todo.create] hands out has a text of 1 to 200 characters; the
    constructor fails with [ValueError] on any text outside that bound, and
    so does [Todo.create]. *)
Theorem todo_text_bound :
  (forall t, produced t -> 1 <= len (text t) <= 200) /\
  (forall i x s c d u, ~ (1 <= len x <= 200) ->
     exists msg, __init__ i x s c d u = Raise (ValueError msg)) /\
  (forall x w, ~ (1 <= len x <= 200) ->
     exists msg, fst (create x w) = Raise (ValueError msg)).
Proof.
  split; [exact produced_bound|]. split.
  - intros i x s c d u Hbad. eexists. by apply init_rejects.
  - intros x w Hbad. rewrite create_unfold. simpl. eexists.
    by apply init_rejects.
Qed.

Lemma todo_text_bound_witness :
  1 <= len (text (mkTodo some_id text_101 pending 0%Z None 0%Z)) <= 200 /\
  (exists msg, __init__ some_id [] pending 0%Z None 0%Z
               = Raise (ValueError msg)) /\
  (exists msg, fst (create (replicate 201 97%N) frozen_world)
               = Raise (ValueError msg)).
Proof.
  destruct todo_text_bound as (Hbound & Hinit & Hcreate).
  split; [|split].
  - apply Hbound.
    apply (produced_init some_id text_101 pending 0%Z None 0%Z).
    reflexivity.
  - apply Hinit. vm_compute. lia.
  - apply Hcreate. vm_compute. lia.
Defined.

(** *** [Todo.create] *)



(** Two creations in a row draw two successive values of the generator. *)
Lemma create_twice_draws x y w t1 w1 t2 w2 :
  create x w = (Ok t1, w1) -> create y w1 = (Ok t2, w2) ->
  id t1 = uuid_str (uuid_source w (uuid_draws w)) /\
  id t2 = uuid_str (uuid_source w (S (uuid_draws w))).
Proof.
  rewrite !create_unfold. intros [= H1 <-] [= H2 _]. simpl in H2.
  apply init_inv in H1 as [-> _]. apply init_inv in H2 as [-> _]. done.
Qed.

(** *** What the constructor does not check *)

(** C10: the constructor checks the length of the text and nothing else:
    with a text of 1 to 200 characters it accepts any id, any status (so
    both "pending" and "completed"), any completion time (so also [None]
    next to "completed") and any other timestamps, and returns the Todo
    with exactly these fields. *)
Theorem init_checks_text_only (i x s : str) (c : datetime)
    (d : option datetime) (u : datetime) :
  1 <= len x <= 200 ->
  __init__ i x s c d u = Ok (mkTodo i x s c d u).
Proof. apply init_ok. Qed.

(** Status "completed" with no completion time is accepted. *)
Lemma init_checks_text_only_witness :
  __init__ some_id (lit "Test todo") completed 0%Z None 0%Z
  = Ok (mkTodo some_id (lit "Test todo") completed 0%Z None 0%Z).
Proof.
  apply (init_checks_text_only some_id (lit "Test todo") completed 0%Z None 0%Z).
  vm_compute. lia.
Defined.

End TodoFacts.

(** ** The system prompt *)

Module PromptFacts.
Import Prompt.

Lemma starts_with_sound needle hay :
  starts_with needle hay = true -> exists after, hay = needle ++ after.
Proof.
  revert hay. induction needle as [|a n IH]; intros [|b h] H; simpl in H.
  - by exists [].
  - by exists (b :: h).
  - done.
  - apply andb_true_iff in H as [Hab Hrest].
    apply N.eqb_eq in Hab as ->.
    destruct (IH _ Hrest) as [after ->]. by exists after.
Qed.

Lemma contains_sound needle hay :
  contains needle hay = true -> occurs_in needle hay.
Proof.
  induction hay as [|b h IH]; simpl; intros H.
  - rewrite orb_false_r in H.
    destruct (starts_with_sound _ _ H) as [after ->]. by exists [], after.
  - apply orb_true_iff in H as [H|H].
    + destruct (starts_with_sound _ _ H) as [after ->]. by exists [], after.
    + destruct (IH H) as (before & after & ->). by exists (b :: before), after.
Qed.

Lemma starts_with_complete needle after : starts_with needle (needle ++ after) = true.
Proof.
  induction needle as [|a n IH]; [done|]. simpl.
  by rewrite N.eqb_refl, IH.
Qed.

Lemma contains_unfold needle hay :
  contains needle hay =
    starts_with needle hay ||
    match hay with [] => false | _ :: h => contains needle h end.
Proof. by destruct hay. Qed.

Lemma contains_complete needle hay :
  occurs_in needle hay -> contains needle hay = true.
Proof.
  intros (before & after & ->).
  induction before as [|b before IH].
  - simpl app. rewrite contains_unfold, starts_with_complete. done.
  - simpl. rewrite IH. apply orb_true_r.
Qed.

Lemma occurs_in_app_r needle a b : occurs_in needle b -> occurs_in needle (a ++ b).
Proof.
  intros (before & after & ->). exists (a ++ before), after.
  by rewrite <- app_assoc.
Qed.

Lemma occurs_in_app_l needle a b : occurs_in needle a -> occurs_in needle (a ++ b).
Proof.
  intros (before & after & ->). exists before, (after ++ b).
  by rewrite <- !app_assoc.
Qed.

Lemma join_lines_cons l ls :
  ls <> [] -> join_lines (l :: ls) = l ++ nl ++ join_lines ls.
Proof. by destruct ls. Qed.

Lemma join_lines_app ls1 ls2 :
  ls1 <> [] -> ls2 <> [] ->
  join_lines (ls1 ++ ls2) = join_lines ls1 ++ nl ++ join_lines ls2.
Proof.
  intros H1 H2. induction ls1 as [|l ls1 IH]; [done|].
  destruct ls1 as [|l' ls1].
  - simpl app. by rewrite join_lines_cons.
  - change ((l :: l' :: ls1) ++ ls2) with (l :: ((l' :: ls1) ++ ls2)).
    rewrite join_lines_cons by done. rewrite IH by done.
    rewrite (join_lines_cons l (l' :: ls1)) by done.
    by rewrite <- !app_assoc.
Qed.

Lemma prompt_split strftime now :
  exists head, get_system_prompt strftime now = head ++ fixed_tail.
Proof.
  unfold get_system_prompt, fixed_tail.
  eexists. rewrite app_assoc.
  rewrite join_lines_app; [reflexivity| |done].
  by destruct lines_before_date.
Qed.

Lemma occurs_in_prompt strftime now needle :
  contains needle fixed_tail = true ->
  occurs_in needle (get_system_prompt strftime now).
Proof.
  intros H. destruct (prompt_split strftime now) as [head ->].
  apply occurs_in_app_r. by apply contains_sound.
Qed.

Lemma mentions_checked words text :
  forallb (fun w => contains (quoted w) text) words = true ->
  mentions words text.
Proof.
  unfold mentions. intros H. apply Forall_forall. intros w Hw.
  rewrite forallb_forall in H.
  apply contains_sound, H. by apply list_elem_of_In.
Qed.

Lemma mentions_prompt strftime now words :
  forallb (fun w => contains (quoted w) fixed_tail) words = true ->
  mentions words (get_system_prompt strftime now).
Proof.
  unfold mentions. intros H. apply Forall_forall. intros w Hw.
  rewrite forallb_forall in H.
  apply occurs_in_prompt, H. by apply list_elem_of_In.
Qed.

Lemma has_line_prompt strftime now (P : str -> Prop) k l :
  lines_after_time !! k = Some l ->
  contains (nl ++ l ++ nl) fixed_tail = true ->
  contains nl l = false ->
  P l ->
  has_line (get_system_prompt strftime now) P.
Proof.
  intros _ Hline Hnl HP. exists l. split; [by apply occurs_in_prompt|].
  split; [|done]. intros Hocc. apply contains_complete in Hocc. congruence.
Qed.

(** C5: whatever the clock reads and however the date and time are
    formatted, the prompt names, between double quotes, the affirmative
    phrases yes, yeah, ok, do it, haan, ji, karo and the negative phrases
    no, cancel, nahi, mat karo.  The affirmative ones stand in two lines
    labelled by language, English (yes, yeah, ok, do it) and Urdu (haan,
    ji, karo), right under the heading "These ALL mean YES"; the negative
    ones stand in the line that tells to cancel the operation. *)
Theorem prompt_confirmation_vocabulary
    (strftime : datetime -> str -> str) (now : datetime) :
  mentions affirmative (get_system_prompt strftime now) /\
  mentions negative (get_system_prompt strftime now) /\
  has_line (get_system_prompt strftime now)
    (fun l => starts_with english_label l = true /\
              mentions affirmative_english l) /\
  has_line (get_system_prompt strftime now)
    (fun l => starts_with urdu_label l = true /\
              mentions affirmative_urdu l) /\
  has_line (get_system_prompt strftime now)
    (fun l => starts_with cancel_lead l = true /\
              mentions negative l /\ occurs_in cancel_tail l) /\
  occurs_in (yes_heading ++ nl ++ english_label ++ quoted "yes")
    (get_system_prompt strftime now).
Proof.
  split; [apply mentions_prompt; vm_compute; reflexivity|].
  split; [apply mentions_prompt; vm_compute; reflexivity|].
  split.
  { eapply (has_line_prompt _ _ _ 26); [reflexivity| | |].
    - vm_compute; reflexivity.
    - vm_compute; reflexivity.
    - split; [vm_compute; reflexivity|].
      apply mentions_checked; vm_compute; reflexivity. }
  split.
  { eapply (has_line_prompt _ _ _ 27); [reflexivity| | |].
    - vm_compute; reflexivity.
    - vm_compute; reflexivity.
    - split; [vm_compute; reflexivity|].
      apply mentions_checked; vm_compute; reflexivity. }
  split.
  { eapply (has_line_prompt _ _ _ 17); [reflexivity| | |].
    - vm_compute; reflexivity.
    - vm_compute; reflexivity.
    - split; [vm_compute; reflexivity|].
      split; [apply mentions_checked; vm_compute; reflexivity|].
      apply contains_sound; vm_compute; reflexivity. }
  apply occurs_in_prompt; vm_compute; reflexivity.
Qed.

End PromptFacts.

(** ** [_parse_tool_response] *)

Module JsonFacts.
Import Json.

Lemma failure_is_dict s : is_dict (failure s) = true.
Proof. reflexivity. Qed.

(** The function always returns: the decoded value when [json.loads]
    returns one, the failure dict around the input when it raises
    [JSONDecodeError]. *)
Lemma parse_tool_response_cases s :
  (exists v, json_loads s = Decoded v /\ _parse_tool_response s = v) \/
  (json_loads s = JSONDecodeError /\ _parse_tool_response s = failure s).
Proof.
  unfold _parse_tool_response. destruct (json_loads s) as [v|].
  - left. by exists v.
  - by right.
Qed.

(** The result is a dict exactly when the input is not JSON or is a JSON
    object. *)
Lemma parse_tool_response_dict_iff s :
  is_dict (_parse_tool_response s) = true <->
  json_loads s = JSONDecodeError \/
  exists items, json_loads s = Decoded (PyDict items).
Proof.
  unfold _parse_tool_response. destruct (json_loads s) as [v|].
  - split.
    + destruct v; try discriminate. intros _. right. by eexists.
    + intros [|[items [= ->]]]; done.
  - split; [by left|done].
Qed.

(** C8: on the input [42], which is valid JSON but not an object,
    [_parse_tool_response] returns the integer 42, which is not a dict,
    although the function is annotated to return one. *)
Theorem parse_tool_response_not_dict :
  json_loads (lit "42") = Decoded (PyInt 42) /\
  _parse_tool_response (lit "42") = PyInt 42 /\
  is_dict (_parse_tool_response (lit "42")) = false.
Proof. repeat split; vm_compute; reflexivity. Qed.

(** Malformed text does come back as the failure dict. *)
Example parse_tool_response_malformed :
  _parse_tool_response (lit "Task not found") = failure (lit "Task not found").
Proof. vm_compute. reflexivity. Qed.

(** Other JSON values that are not objects come back as they are. *)
Example parse_tool_response_list :
  _parse_tool_response (lit "[1, true, null]")
  = PyList [PyInt 1; PyBool true; PyNone].
Proof. vm_compute. reflexivity. Qed.

End JsonFacts.

(** ** The five tools *)

Module ToolsFacts.
Import Tools.

Section Facts.

Context {Session UUID Exc Store : Type}.
Variable handlers :
  Call Session UUID -> Store -> (list TextContent + Exc) * Store.

Abbreviation World := (World Session UUID Store).
Abbreviation Ctx := (RunContextWrapper Session UUID).

Lemma run_tool_unfold (ctx : Ctx) (r : Request) (w : World) :
  run_tool handlers ctx r w =
    (returned r (handlers (forwarded ctx r) (store w)).1,
     mkWorld (handlers (forwarded ctx r) (store w)).2
             (calls w ++ [forwarded ctx r])
             (stdout w ++ printed r (handlers (forwarded ctx r) (store w)).1)).
Proof.
  destruct w as [st cs out].
  destruct r; simpl;
    unfold tool_add_task, tool_list_tasks, tool_complete_task,
           tool_update_task, tool_delete_task, bind, await, print, ret; simpl;
    match goal with
    | |- context [handlers ?c st] => destruct (handlers c st) as [[result|e] st']
    end; simpl; rewrite <- ?app_assoc, ?app_nil_r; reflexivity.
Qed.

Lemma forwarded_scope (ctx : Ctx) (r : Request) :
  call_session (forwarded ctx r) = session (context ctx) /\
  call_user (forwarded ctx r) = user_id (context ctx).
Proof. by destruct r. Qed.


(** When the handler returns at least one item, the tool returns the text
    of the first. *)
Lemma tool_returns_first_text (ctx : Ctx) (r : Request) (w : World) first others :
  (handlers (forwarded ctx r) (store w)).1 = inl (first :: others) ->
  (run_tool handlers ctx r w).1 = inl (text first).
Proof. rewrite run_tool_unfold. simpl. by intros ->. Qed.

(** The add tool on its own. *)
Lemma add_tool_forwards (ctx : Ctx) (title description : str) (w : World) :
  calls (tool_add_task handlers ctx title description w).2
    = calls w ++ [add_task (session (context ctx)) (user_id (context ctx))
                    title description] /\
  store (tool_add_task handlers ctx title description w).2
    = (handlers (add_task (session (context ctx)) (user_id (context ctx))
                   title description) (store w)).2 /\
  (tool_add_task handlers ctx title description w).1
    = returned (AddReq title description)
        (handlers (add_task (session (context ctx)) (user_id (context ctx))
                     title description) (store w)).1.
Proof.
  pose proof (run_tool_unfold ctx (AddReq title description) w) as H.
  simpl in H. rewrite H. done.
Qed.

(** The five tools one by one, as [run_tool] dispatches them. *)
Lemma run_tool_add ctx title description :
  run_tool handlers ctx (AddReq title description)
  = tool_add_task handlers ctx title description.
Proof. reflexivity. Qed.

Lemma run_tool_list ctx filter :
  run_tool handlers ctx (ListReq filter) = tool_list_tasks handlers ctx filter.
Proof. reflexivity. Qed.

Lemma run_tool_complete ctx task_id :
  run_tool handlers ctx (CompleteReq task_id)
  = tool_complete_task handlers ctx task_id.
Proof. reflexivity. Qed.

Lemma run_tool_update ctx task_id title description :
  run_tool handlers ctx (UpdateReq task_id title description)
  = tool_update_task handlers ctx task_id title description.
Proof. reflexivity. Qed.

Lemma run_tool_delete ctx task_id :
  run_tool handlers ctx (DeleteReq task_id)
  = tool_delete_task handlers ctx task_id.
Proof. reflexivity. Qed.

End Facts.

(** *** An empty title *)



End ToolsFacts.

(** ** Provider selection *)

Module ConfigFacts.
Import Config.

Lemma truthy_opt_true (env : environ) name :
  truthy_opt (get env name) = true <-> is_set env name.
Proof.
  unfold is_set. destruct (get env name) as [v|]; simpl.
  - rewrite truthy_true. split.
    + intros Hv. by exists v.
    + by intros (v' & [= <-] & Hv).
  - split; [done|]. by intros (v & ? & _).
Qed.

Lemma truthy_opt_false (env : environ) name :
  truthy_opt (get env name) = false <-> ~ is_set env name.
Proof.
  rewrite <- truthy_opt_true. destruct (truthy_opt (get env name)); split; congruence.
Qed.

Lemma ascii_lower_nil s : ascii_lower s = [] <-> s = [].
Proof. unfold ascii_lower. by destruct s. Qed.

Section Facts.

Variable lower : str -> str.

(** Lowercasing maps the empty string, and only it, to the empty string. *)
Hypothesis lower_nil : forall s, lower s = [] <-> s = [].

Lemma provider_truthy (env : environ) :
  truthy (lower (get_or env AI_PROVIDER [])) = true <-> is_set env AI_PROVIDER.
Proof using lower_nil.
  rewrite truthy_true, lower_nil. unfold get_or, is_set.
  destruct (get env AI_PROVIDER) as [v|].
  - split; [intros Hv; by exists v|]. by intros (v' & [= <-] & Hv).
  - split; [done|]. by intros (v & ? & _).
Qed.

Lemma detect_explicit (env : environ) v :
  get env AI_PROVIDER = Some v -> v <> [] -> _detect_provider lower env = lower v.
Proof using lower_nil.
  intros Hv Hne. unfold _detect_provider.
  assert (Hset : is_set env AI_PROVIDER) by by exists v.
  apply provider_truthy in Hset. rewrite Hset.
  unfold get_or. by rewrite Hv.
Qed.

Lemma detect_auto (env : environ) :
  ~ is_set env AI_PROVIDER ->
  _detect_provider lower env =
    if truthy_opt (get env GEMINI_API_KEY) then gemini
    else if truthy_opt (get env OPENAI_API_KEY) then openai
    else gemini.
Proof using lower_nil.
  intros Hunset. unfold _detect_provider.
  destruct (truthy (lower (get_or env AI_PROVIDER []))) eqn:E; [|done].
  by apply provider_truthy in E.
Qed.

(** C9: the provider is a function of the environment.  With AI_PROVIDER
    set it is that value lowercased.  Otherwise it is "gemini" when
    GEMINI_API_KEY is set, "openai" when OPENAI_API_KEY is set and
    GEMINI_API_KEY is not, and "gemini" when neither is; in that last
    case [get_api_client] raises [AgentConfigError] and returns no client.
    (A variable counts as set when it is present and not empty.) *)
Theorem provider_selection (env : environ) :
  (forall v, get env AI_PROVIDER = Some v -> v <> [] ->
     _detect_provider lower env = lower v) /\
  (~ is_set env AI_PROVIDER -> is_set env GEMINI_API_KEY ->
     _detect_provider lower env = gemini) /\
  (~ is_set env AI_PROVIDER -> ~ is_set env GEMINI_API_KEY ->
   is_set env OPENAI_API_KEY ->
     _detect_provider lower env = openai) /\
  (~ is_set env AI_PROVIDER -> ~ is_set env GEMINI_API_KEY ->
   ~ is_set env OPENAI_API_KEY ->
     _detect_provider lower env = gemini /\
     get_api_client lower env = Raise (AgentConfigError msg_gemini_key)).
Proof using lower_nil.
  split; [exact (detect_explicit env)|].
  split; [|split].
  - intros Hp Hg. rewrite detect_auto by done.
    apply truthy_opt_true in Hg. by rewrite Hg.
  - intros Hp Hg Ho. rewrite detect_auto by done.
    apply truthy_opt_false in Hg. apply truthy_opt_true in Ho.
    by rewrite Hg, Ho.
  - intros Hp Hg Ho.
    assert (Hd : _detect_provider lower env = gemini).
    { rewrite detect_auto by done.
      apply truthy_opt_false in Hg. apply truthy_opt_false in Ho.
      by rewrite Hg, Ho. }
    split; [exact Hd|].
    unfold get_api_client. rewrite Hd.
    replace (str_eqb gemini gemini) with true by (symmetry; by apply str_eqb_eq).
    apply truthy_opt_false in Hg.
    destruct (get env GEMINI_API_KEY) as [key|]; [|done].
    simpl in Hg. by rewrite Hg.
Qed.

End Facts.

Lemma provider_selection_witness :
  _detect_provider ascii_lower env_explicit = lit "openai" /\
  _detect_provider ascii_lower env_openai_only = openai /\
  _detect_provider ascii_lower ∅ = gemini /\
  get_api_client ascii_lower ∅ = Raise (AgentConfigError msg_gemini_key).
Proof.
  assert (Hunset : forall (env : environ) name, get env name = None -> ~ is_set env name).
  { intros env name Hnone (v & Hv & _). congruence. }
  split; [|split].
  - destruct (provider_selection ascii_lower ascii_lower_nil env_explicit)
      as (H & _).
    apply (H (lit "OpenAI")); [vm_compute; reflexivity|discriminate].
  - destruct (provider_selection ascii_lower ascii_lower_nil env_openai_only)
      as (_ & _ & H & _).
    apply H.
    + apply Hunset. vm_compute; reflexivity.
    + apply Hunset. vm_compute; reflexivity.
    + exists (lit "sk-test"). split; [vm_compute; reflexivity|discriminate].
  - destruct (provider_selection ascii_lower ascii_lower_nil ∅)
      as (_ & _ & _ & H).
    apply H; apply Hunset; apply lookup_empty.
Defined.

End ConfigFacts.

(** ** The store's [complete], as specified *)

Module StoreFacts.
Import Store.

Lemma toggled_involutive t : toggled (toggled t) = t.
Proof. destruct t as [i o ti de c]. unfold toggled; simpl. by rewrite negb_involutive. Qed.

Lemma refers_toggled o tid t : refers o tid (toggled t) = refers o tid t.
Proof. reflexivity. Qed.

Lemma complete_found o tid tasks t :
  find o tid tasks = Some t ->
  exists tasks',
    complete o tid tasks = (inl (toggled t), tasks') /\
    find o tid tasks' = Some (toggled t) /\
    complete o tid tasks' = (inl t, tasks) /\
    length tasks' = length tasks.
Proof.
  unfold find. induction tasks as [|t0 rest IH]; simpl; [done|].
  destruct (refers o tid t0) eqn:E.
  - intros [= ->]. exists (toggled t :: rest). simpl.
    rewrite refers_toggled, E, toggled_involutive. done.
  - intros Hfind. destruct (IH Hfind) as (rest' & Hc & Hf & Hback & Hlen).
    exists (t0 :: rest'). rewrite Hc. simpl. rewrite E, Hback, Hf, Hlen. done.
Qed.

Lemma complete_missing o tid tasks :
  find o tid tasks = None -> complete o tid tasks = (inr NotFoundError, tasks).
Proof.
  unfold find. induction tasks as [|t0 rest IH]; simpl; [done|].
  destruct (refers o tid t0); [done|]. intros H. by rewrite (IH H).
Qed.

(** C6: when [owner] refers to one of their tasks, [complete] returns that
    task with the completion flag flipped and every other field as it
    was, and the store holds the flipped task in its place: a pending task
    comes back completed, a completed one pending; completing once more
    gives back the original task and the original store. *)
Theorem complete_toggles (o : N) (tid : str) (tasks : list Task) (t : Task) :
  find o tid tasks = Some t ->
  exists t' tasks',
    complete o tid tasks = (inl t', tasks') /\
    completed t' = negb (completed t) /\
    (completed t = false -> completed t' = true) /\
    (completed t = true -> completed t' = false) /\
    task_id t' = task_id t /\ owner t' = owner t /\
    title t' = title t /\ description t' = description t /\
    find o tid tasks' = Some t' /\
    complete o tid tasks' = (inl t, tasks).
Proof.
  intros Hfind.
  destruct (complete_found o tid tasks t Hfind) as (tasks' & Hc & Hf & Hback & _).
  exists (toggled t), tasks'.
  split; [exact Hc|]. split; [reflexivity|].
  split; [intros H; simpl; by rewrite H|].
  split; [intros H; simpl; by rewrite H|].
  repeat (split; [reflexivity|]). done.
Qed.

Lemma complete_toggles_witness :
  exists t' tasks',
    complete 7 (lit "b2") sample_store = (inl t', tasks') /\
    completed t' = negb (completed mom) /\
    (completed mom = false -> completed t' = true) /\
    (completed mom = true -> completed t' = false) /\
    task_id t' = task_id mom /\ owner t' = owner mom /\
    title t' = title mom /\ description t' = description mom /\
    find 7 (lit "b2") tasks' = Some t' /\
    complete 7 (lit "b2") tasks' = (inl mom, sample_store).
Proof.
  apply (complete_toggles 7 (lit "b2") sample_store mom).
  vm_compute. reflexivity.
Defined.

(** Another user's task is out of reach, and the store stays as it is. *)
Example complete_not_owner :
  complete 7 (lit "c3") sample_store = (inr NotFoundError, sample_store).
Proof. apply complete_missing. vm_compute. reflexivity. Qed.

End StoreFacts.

(** ** The decoder behind [_parse_tool_response] *)

Module JsonDecoderFacts.
Import Json JsonShapes.

#[local] Opaque N.eqb N.ltb N.leb.

(** A pattern on a character literal is a test for equality. *)
Lemma match_lit_45 {A} (c : N) (a b : A) :
  match c with 45%N => a | _ => b end = if (c =? 45)%N then a else b.
Proof.
  destruct (N.eqb_spec c 45) as [->|Hne]; [reflexivity|].
  destruct c as [|p]; [reflexivity|].
  repeat (destruct p as [p|p|]; try reflexivity). congruence.
Qed.

Lemma match_lit_48 {A} (c : N) (a b : A) :
  match c with 48%N => a | _ => b end = if (c =? 48)%N then a else b.
Proof.
  destruct (N.eqb_spec c 48) as [->|Hne]; [reflexivity|].
  destruct c as [|p]; [reflexivity|].
  repeat (destruct p as [p|p|]; try reflexivity). congruence.
Qed.

Lemma match_lit_46 {A} (c : N) (a b : A) :
  match c with 46%N => a | _ => b end = if (c =? 46)%N then a else b.
Proof.
  destruct (N.eqb_spec c 46) as [->|Hne]; [reflexivity|].
  destruct c as [|p]; [reflexivity|].
  repeat (destruct p as [p|p|]; try reflexivity). congruence.
Qed.

(** *** Every scanner consumes input *)

Lemma scanstring_shorter_aux n : forall s acc v r,
  length s <= n -> scanstring s acc = Some (v, r) -> length r < length s.
Proof.
  induction n as [|n IH]; intros s acc v r Hn H.
  - destruct s; [discriminate|simpl in Hn; lia].
  - destruct s as [|c rest]; [discriminate|]. cbn [scanstring] in H. simpl in Hn.
    destruct (c =? 34)%N; [injection H as <- <-; simpl; lia|].
    destruct (c =? 92)%N.
    + destruct rest as [|e rest1]; [discriminate|].
      destruct (e =? 117)%N.
      * destruct rest1 as [|a [|b [|c' [|d rest2]]]]; try discriminate.
        destruct (hex4 a b c' d) as [uni|]; [|discriminate].
        simpl in Hn.
        destruct rest2 as [|bs [|u [|a2 [|b2 [|c2 [|d2 rest3]]]]]];
          try (apply IH in H; simpl in *; lia).
        destruct (is_high_surrogate uni && (bs =? 92)%N && (u =? 117)%N).
        -- destruct (hex4 a2 b2 c2 d2) as [uni2|]; [|discriminate].
           destruct (is_low_surrogate uni2); apply IH in H; simpl in *; lia.
        -- apply IH in H; simpl in *; lia.
      * destruct (backslash e); [|discriminate].
        apply IH in H; simpl in *; lia.
    + destruct (c <? 32)%N; [discriminate|]. apply IH in H; simpl in *; lia.
Qed.

Lemma scanstring_shorter s acc v r :
  scanstring s acc = Some (v, r) -> length r < length s.
Proof. apply (scanstring_shorter_aux (length s)). lia. Qed.

#[local] Arguments scanstring : simpl never.

Lemma skip_ws_length s : length (skip_ws s) <= length s.
Proof.
  induction s as [|c rest IH]; cbn [skip_ws]; [simpl; lia|].
  destruct (is_ws c); simpl; lia.
Qed.

Lemma span_digits_length s ds r :
  span_digits s = (ds, r) -> length s = length ds + length r.
Proof.
  revert ds r. induction s as [|c rest IH]; simpl; intros ds r H.
  - by injection H as <- <-.
  - destruct (is_digit c).
    + destruct (span_digits rest) as [ds' r'] eqn:E. injection H as <- <-.
      simpl. rewrite (IH _ _ eq_refl). lia.
    + injection H as <- <-. simpl. lia.
Qed.

Lemma span_digits_digit c r0 ds r1 :
  is_digit c = true -> span_digits (c :: r0) = (ds, r1) -> length r1 <= length r0.
Proof.
  intros Ed E. simpl in E. rewrite Ed in E.
  destruct (span_digits r0) as [ds' r'] eqn:E'. injection E as <- <-.
  apply span_digits_length in E'. lia.
Qed.

Lemma strip_prefix_length w s r :
  strip_prefix w s = Some r -> length s = length w + length r.
Proof.
  revert s. induction w as [|a w IH]; intros [|b s] H; simpl in H; try discriminate.
  - by injection H as <-.
  - by injection H as <-.
  - destruct (a =? b)%N; [|discriminate]. simpl. by rewrite (IH _ H).
Qed.

Lemma match_integer_shorter s lexeme r :
  match_integer s = Some (lexeme, r) -> length r < length s.
Proof.
  unfold match_integer. intros H.
  destruct s as [|c0 s0]; [discriminate|].
  rewrite match_lit_45 in H.
  destruct (c0 =? 45)%N.
  - destruct s0 as [|c r0]; [discriminate|].
    rewrite match_lit_48 in H.
    destruct (c =? 48)%N; [injection H as <- <-; simpl; lia|].
    destruct (is_digit c) eqn:Ed; [|discriminate].
    destruct (span_digits (c :: r0)) as [ds r1] eqn:E. injection H as <- <-.
    apply span_digits_digit in E; [simpl; lia|done].
  - rewrite match_lit_48 in H.
    destruct (c0 =? 48)%N; [injection H as <- <-; simpl; lia|].
    destruct (is_digit c0) eqn:Ed; [|discriminate].
    destruct (span_digits (c0 :: s0)) as [ds r1] eqn:E. injection H as <- <-.
    apply span_digits_digit in E; [simpl; lia|done].
Qed.

Lemma match_frac_length s frac r : match_frac s = (frac, r) -> length r <= length s.
Proof.
  unfold match_frac. intros H.
  destruct s as [|c s0]; [by injection H as <- <-|].
  rewrite match_lit_46 in H.
  destruct (c =? 46)%N; [|by injection H as <- <-].
  destruct (span_digits s0) as [ds r'] eqn:E. apply span_digits_length in E.
  destruct ds; injection H as <- <-; simpl in *; lia.
Qed.

Lemma match_exp_length s e r : match_exp s = (e, r) -> length r <= length s.
Proof.
  unfold match_exp. intros H.
  destruct s as [|c s0]; [by injection H as <- <-|].
  destruct ((c =? 101) || (c =? 69))%N; [|by injection H as <- <-].
  set (sr := match s0 with
             | [] => ([], s0)
             | c1 :: r' => if ((c1 =? 45) || (c1 =? 43))%N then ([c1], r') else ([], s0)
             end) in H.
  assert (Hsr : length sr.2 <= length s0).
  { subst sr. destruct s0 as [|c1 r']; [done|].
    destruct ((c1 =? 45) || (c1 =? 43))%N; simpl; lia. }
  destruct sr as [sign r1]. simpl in Hsr.
  destruct (span_digits r1) as [ds r'] eqn:E. apply span_digits_length in E.
  destruct ds; injection H as <- <-; simpl in *; lia.
Qed.

Lemma match_number_shorter s v r :
  match_number s = Some (v, r) -> length r < length s.
Proof.
  unfold match_number. intros H.
  destruct (match_integer s) as [[integer r0]|] eqn:Ei; [|discriminate].
  apply match_integer_shorter in Ei.
  destruct (match_frac r0) as [frac r1] eqn:Ef. apply match_frac_length in Ef.
  destruct (match_exp r1) as [e r2] eqn:Ee. apply match_exp_length in Ee.
  destruct (truthy frac || truthy e); injection H as <- <-; lia.
Qed.

Lemma scan_constant_shorter s v r :
  scan_constant s = Some (v, r) -> length r < length s.
Proof.
  unfold scan_constant. intros H.
  repeat match type of H with
  | context [strip_prefix ?w s] =>
      let E := fresh "E" in
      destruct (strip_prefix w s) eqn:E;
      [apply strip_prefix_length in E; injection H as <- <-; simpl in E; lia|]
  | context [match_number s] =>
      let E := fresh "E" in
      destruct (match_number s) as [[v' r']|] eqn:E;
      [apply match_number_shorter in E; injection H as <- <-; lia|]
  end.
  discriminate.
Qed.

#[local] Arguments scan_constant : simpl never.
#[local] Arguments skip_ws : simpl never.

(** The three mutually recursive scanners, one step unfolded. *)
Lemma scan_once_eq f c rest :
  scan_once (S f) (c :: rest) =
    if (c =? 34)%N then
      match scanstring rest [] with
      | Some (v, r) => Some (PyStr v, r)
      | None => None
      end
    else if (c =? 123)%N then
      match skip_ws rest with
      | c1 :: r1 =>
          if (c1 =? 125)%N then Some (PyDict [], r1)
          else if (c1 =? 34)%N then object_loop f r1 [] else None
      | [] => None
      end
    else if (c =? 91)%N then
      match skip_ws rest with
      | c1 :: r1 =>
          if (c1 =? 93)%N then Some (PyList [], r1)
          else array_loop f (c1 :: r1) []
      | [] => None
      end
    else scan_constant (c :: rest).
Proof. reflexivity. Qed.

Lemma array_loop_eq f s values :
  array_loop (S f) s values =
    match scan_once f s with
    | None => None
    | Some (value, r) =>
        match skip_ws r with
        | c :: r1 =>
            if (c =? 93)%N then Some (PyList (values ++ [value]), r1)
            else if (c =? 44)%N
            then array_loop f (skip_ws r1) (values ++ [value])
            else None
        | [] => None
        end
    end.
Proof. reflexivity. Qed.

Lemma object_loop_eq f s pairs :
  object_loop (S f) s pairs =
    match scanstring s [] with
    | None => None
    | Some (key, r) =>
        match skip_ws r with
        | c :: r1 =>
            if (c =? 58)%N then
              match scan_once f (skip_ws r1) with
              | None => None
              | Some (value, r2) =>
                  match skip_ws r2 with
                  | c2 :: r3 =>
                      if (c2 =? 125)%N
                      then Some (PyDict (dict_set pairs key value), r3)
                      else if (c2 =? 44)%N then
                        match skip_ws r3 with
                        | c3 :: r4 =>
                            if (c3 =? 34)%N
                            then object_loop f r4 (dict_set pairs key value)
                            else None
                        | [] => None
                        end
                      else None
                  | [] => None
                  end
              end
            else None
        | [] => None
        end
    end.
Proof. reflexivity. Qed.

Lemma scan_shorter f :
  (forall s v r, scan_once f s = Some (v, r) -> length r < length s) /\
  (forall s vs v r, array_loop f s vs = Some (v, r) -> length r < length s) /\
  (forall s ps v r, object_loop f s ps = Some (v, r) -> length r < length s).
Proof.
  induction f as [|f (IHs & IHa & IHo)]; [by repeat split|].
  split; [|split].
  - intros [|c rest] v r H; [discriminate|]. rewrite scan_once_eq in H.
    destruct (c =? 34)%N.
    { destruct (scanstring rest []) as [[v' r']|] eqn:E; [|discriminate].
      injection H as <- <-. apply scanstring_shorter in E. simpl. lia. }
    destruct (c =? 123)%N.
    { pose proof (skip_ws_length rest) as Hw.
      destruct (skip_ws rest) as [|c1 r1]; [discriminate|].
      destruct (c1 =? 125)%N; [injection H as <- <-; simpl in *; lia|].
      destruct (c1 =? 34)%N; [|discriminate].
      apply IHo in H. simpl in *. lia. }
    destruct (c =? 91)%N.
    { pose proof (skip_ws_length rest) as Hw.
      destruct (skip_ws rest) as [|c1 r1]; [discriminate|].
      destruct (c1 =? 93)%N; [injection H as <- <-; simpl in *; lia|].
      apply IHa in H. simpl in *. lia. }
    by apply scan_constant_shorter in H.
  - intros s vs v r H. rewrite array_loop_eq in H.
    destruct (scan_once f s) as [[value r0]|] eqn:E; [|discriminate].
    apply IHs in E. pose proof (skip_ws_length r0) as Hw.
    destruct (skip_ws r0) as [|c r1]; [discriminate|].
    destruct (c =? 93)%N; [injection H as <- <-; simpl in *; lia|].
    destruct (c =? 44)%N; [|discriminate].
    apply IHa in H. pose proof (skip_ws_length r1). simpl in *. lia.
  - intros s ps v r H. rewrite object_loop_eq in H.
    destruct (scanstring s []) as [[key r0]|] eqn:E; [|discriminate].
    apply scanstring_shorter in E. pose proof (skip_ws_length r0) as Hw.
    destruct (skip_ws r0) as [|c r1]; [discriminate|].
    destruct (c =? 58)%N; [|discriminate].
    destruct (scan_once f (skip_ws r1)) as [[value r2]|] eqn:E2; [|discriminate].
    apply IHs in E2. pose proof (skip_ws_length r1) as Hw1.
    pose proof (skip_ws_length r2) as Hw2.
    destruct (skip_ws r2) as [|c2 r3]; [discriminate|].
    destruct (c2 =? 125)%N; [injection H as <- <-; simpl in *; lia|].
    destruct (c2 =? 44)%N; [|discriminate].
    pose proof (skip_ws_length r3) as Hw3.
    destruct (skip_ws r3) as [|c3 r4]; [discriminate|].
    destruct (c3 =? 34)%N; [|discriminate].
    apply IHo in H. simpl in *. lia.
Qed.

(** *** The fuel of [json_loads] is never used up *)

Lemma scan_fuel_step f :
  (forall s, 2 * length s + 1 <= f -> scan_once (S f) s = scan_once f s) /\
  (forall s vs, 2 * length s + 2 <= f ->
     array_loop (S f) s vs = array_loop f s vs) /\
  (forall s ps, 2 * length s + 2 <= f ->
     object_loop (S f) s ps = object_loop f s ps).
Proof.
  induction f as [|f (IHs & IHa & IHo)]; [repeat split; intros; lia|].
  destruct (scan_shorter f) as (Hs & _ & _).
  split; [|split].
  - intros [|c rest] Hf; [done|]. simpl in Hf.
    rewrite (scan_once_eq (S f)), (scan_once_eq f).
    pose proof (skip_ws_length rest) as Hw.
    destruct (skip_ws rest) as [|c1 r1]; [done|]. simpl in Hw.
    rewrite IHo by lia. rewrite IHa by (simpl; lia). done.
  - intros s vs Hf.
    rewrite (array_loop_eq (S f)), (array_loop_eq f).
    rewrite IHs by lia.
    destruct (scan_once f s) as [[value r]|] eqn:E; [|done].
    apply Hs in E. pose proof (skip_ws_length r) as Hw.
    destruct (skip_ws r) as [|c r1]; [done|]. simpl in Hw.
    pose proof (skip_ws_length r1) as Hw1.
    rewrite IHa by lia. done.
  - intros s ps Hf.
    rewrite (object_loop_eq (S f)), (object_loop_eq f).
    destruct (scanstring s []) as [[key r]|] eqn:E; [|done].
    apply scanstring_shorter in E. pose proof (skip_ws_length r) as Hw.
    destruct (skip_ws r) as [|c r1]; [done|]. simpl in Hw.
    pose proof (skip_ws_length r1) as Hw1.
    rewrite IHs by lia.
    destruct (scan_once f (skip_ws r1)) as [[value r2]|] eqn:E2; [|done].
    apply Hs in E2. pose proof (skip_ws_length r2) as Hw2.
    destruct (skip_ws r2) as [|c2 r3]; [done|]. simpl in Hw2.
    pose proof (skip_ws_length r3) as Hw3.
    destruct (skip_ws r3) as [|c3 r4]; [done|]. simpl in Hw3.
    rewrite IHo by lia. done.
Qed.

(** Whatever fuel is given beyond the bound, the scanner's answer is the
    one [json_loads] computes: a [None] of the scanner is a decode error,
    never an exhausted bound. *)
Lemma scan_once_fuel s f :
  2 * length s + 2 <= f ->
  scan_once f (skip_ws s) = scan_once (2 * length s + 2) (skip_ws s).
Proof.
  intros Hf. induction Hf as [|f Hf IH]; [done|].
  rewrite <- IH. apply scan_fuel_step.
  pose proof (skip_ws_length s). lia.
Qed.

(** *** Texts that cannot be JSON *)

Lemma strip_prefix_other a w c rest :
  (a =? c)%N = false -> strip_prefix (a :: w) (c :: rest) = None.
Proof. intros H. simpl. by rewrite H. Qed.

Lemma value_start_false c :
  value_start c = false ->
  (c =? 34)%N = false /\ (c =? 123)%N = false /\ (c =? 91)%N = false /\
  (c =? 45)%N = false /\ is_digit c = false /\ (c =? 110)%N = false /\
  (c =? 116)%N = false /\ (c =? 102)%N = false /\ (c =? 78)%N = false /\
  (c =? 73)%N = false.
Proof.
  unfold value_start. rewrite !orb_false_iff. tauto.
Qed.

Lemma is_digit_48 c : is_digit c = false -> (c =? 48)%N = false.
Proof.
  unfold is_digit. intros H. destruct (N.eqb_spec c 48) as [->|]; [|done].
  by vm_compute in H.
Qed.

Lemma scan_constant_other c rest :
  value_start c = false -> scan_constant (c :: rest) = None.
Proof.
  intros H. apply value_start_false in H
    as (_ & _ & _ & Hminus & Hdigit & Hn & Ht & Hf & HN & HI).
  assert (Hflip : forall a, (c =? a)%N = false -> (a =? c)%N = false)
    by (intros a; by rewrite (N.eqb_sym a c)).
  unfold scan_constant.
  change (lit "null") with (110%N :: lit "ull").
  change (lit "true") with (116%N :: lit "rue").
  change (lit "false") with (102%N :: lit "alse").
  change (lit "NaN") with (78%N :: lit "aN").
  change (lit "Infinity") with (73%N :: lit "nfinity").
  change (lit "-Infinity") with (45%N :: lit "Infinity").
  rewrite !strip_prefix_other by by apply Hflip.
  unfold match_number, match_integer.
  rewrite match_lit_45, Hminus, match_lit_48, (is_digit_48 _ Hdigit), Hdigit.
  done.
Qed.

Lemma scan_once_other f c rest :
  value_start c = false -> scan_once f (c :: rest) = None.
Proof.
  intros H. destruct f as [|f]; [done|]. rewrite scan_once_eq.
  pose proof (value_start_false _ H) as (-> & -> & -> & _).
  by apply scan_constant_other.
Qed.

Lemma json_loads_cannot s :
  may_be_json s = false -> json_loads s = JSONDecodeError.
Proof.
  unfold may_be_json, first_char, json_loads. intros H.
  destruct s as [|c0 s0]; [done|].
  destruct (c0 =? bom)%N; [done|].
  destruct (skip_ws (c0 :: s0)) as [|c rest]; simpl in H.
  - by destruct (2 * length (c0 :: s0) + 2).
  - by rewrite scan_once_other.
Qed.

(** X7: A text that is blank, or whose first non-blank character cannot begin a
    JSON value, comes back as the failure dict around that very text. *)
Theorem parse_tool_response_prose (s : str) :
  may_be_json s = false -> _parse_tool_response s = failure s.
Proof.
  intros H. unfold _parse_tool_response. by rewrite json_loads_cannot.
Qed.

Lemma parse_tool_response_prose_witness :
  _parse_tool_response (lit "Task not found") = failure (lit "Task not found") /\
  _parse_tool_response [] = failure [].
Proof.
  split.
  - apply (parse_tool_response_prose (lit "Task not found")).
    vm_compute. reflexivity.
  - apply (parse_tool_response_prose []). vm_compute. reflexivity.
Defined.

(** X8: The message a tool returns when its handler gave no content is such a
    text: parsing it gives the failure dict that carries the message. *)
Theorem fallback_parses_to_failure (r : Tools.Request) :
  _parse_tool_response (Tools.fallback r) = failure (Tools.fallback r).
Proof.
  unfold _parse_tool_response. rewrite json_loads_cannot; [done|].
  destruct r; vm_compute; reflexivity.
Qed.

(** *** Texts that start like a JSON object *)

Lemma object_loop_dict f : forall s ps v r,
  object_loop f s ps = Some (v, r) -> is_dict v = true.
Proof.
  induction f as [|f IH]; intros s ps v r H; [discriminate|].
  rewrite object_loop_eq in H.
  destruct (scanstring s []) as [[key r0]|]; [|discriminate].
  destruct (skip_ws r0) as [|c r1]; [discriminate|].
  destruct (c =? 58)%N; [|discriminate].
  destruct (scan_once f (skip_ws r1)) as [[value r2]|]; [|discriminate].
  destruct (skip_ws r2) as [|c2 r3]; [discriminate|].
  destruct (c2 =? 125)%N; [by injection H as <- <-|].
  destruct (c2 =? 44)%N; [|discriminate].
  destruct (skip_ws r3) as [|c3 r4]; [discriminate|].
  destruct (c3 =? 34)%N; [|discriminate].
  by apply IH in H.
Qed.

Lemma scan_once_brace f rest v r :
  scan_once f (opening_brace :: rest) = Some (v, r) -> is_dict v = true.
Proof.
  destruct f as [|f]; [discriminate|]. rewrite scan_once_eq.
  change (opening_brace =? 34)%N with false.
  change (opening_brace =? 123)%N with true. cbv iota.
  destruct (skip_ws rest) as [|c1 r1]; [discriminate|].
  destruct (c1 =? 125)%N; [by intros [= <- <-]|].
  destruct (c1 =? 34)%N; [|discriminate].
  apply object_loop_dict.
Qed.



(** *** Valid JSON that is not an object *)

Lemma match_number_not_dict s v r :
  match_number s = Some (v, r) -> is_dict v = false.
Proof.
  unfold match_number.
  destruct (match_integer s) as [[integer r0]|]; [|discriminate].
  destruct (match_frac r0) as [frac r1]. destruct (match_exp r1) as [e r2].
  destruct (truthy frac || truthy e); by intros [= <- _].
Qed.

Lemma scan_constant_not_dict s v r :
  scan_constant s = Some (v, r) -> is_dict v = false.
Proof.
  unfold scan_constant. intros H.
  repeat match type of H with
  | context [strip_prefix ?w s] =>
      destruct (strip_prefix w s); [by injection H as <- _|]
  | context [match_number s] =>
      let E := fresh "E" in
      destruct (match_number s) as [[v' r']|] eqn:E;
      [apply match_number_not_dict in E; by injection H as <- _|]
  end.
  discriminate.
Qed.

Lemma array_loop_not_dict f : forall s vs v r,
  array_loop f s vs = Some (v, r) -> is_dict v = false.
Proof.
  induction f as [|f IH]; intros s vs v r H; [discriminate|].
  rewrite array_loop_eq in H.
  destruct (scan_once f s) as [[value r0]|]; [|discriminate].
  destruct (skip_ws r0) as [|c r1]; [discriminate|].
  destruct (c =? 93)%N; [by injection H as <- _|].
  destruct (c =? 44)%N; [|discriminate].
  by apply IH in H.
Qed.

Lemma scan_once_not_brace f c rest v r :
  c <> opening_brace ->
  scan_once f (c :: rest) = Some (v, r) -> is_dict v = false.
Proof.
  intros Hc. destruct f as [|f]; [discriminate|]. rewrite scan_once_eq.
  destruct (c =? 34)%N.
  { destruct (scanstring rest []) as [[v' r']|]; [|discriminate].
    by intros [= <- _]. }
  destruct (N.eqb_spec c 123) as [->|_]; [done|].
  destruct (c =? 91)%N.
  { destruct (skip_ws rest) as [|c1 r1]; [discriminate|].
    destruct (c1 =? 93)%N; [by intros [= <- _]|].
    apply array_loop_not_dict. }
  apply scan_constant_not_dict.
Qed.



End JsonDecoderFacts.

(** ** The Todo model under its unit tests *)

Module TodoTestFacts.
Import TodoModel TodoTests TodoFacts.

(** X1: The two error messages, for the constructor and for the factory alike:
    an empty text is "Todo text required", a text of more than 200
    characters is "Todo text too long (max 200 characters)". *)
Theorem todo_error_messages (i x s : str) (c : datetime)
    (d : option datetime) (u : datetime) (w : World) :
  ~ (1 <= len x <= 200) ->
  __init__ i x s c d u
    = Raise (ValueError (if len x =? 0 then msg_required else msg_too_long)) /\
  (create x w).1
    = Raise (ValueError (if len x =? 0 then msg_required else msg_too_long)).
Proof.
  intros Hbad. split; [by apply init_rejects|].
  rewrite create_unfold. simpl. by apply init_rejects.
Qed.

Lemma todo_error_messages_witness :
  (__init__ some_id [] pending 0%Z None 0%Z
     = Raise (ValueError (lit "Todo text required")) /\
   (create [] frozen_world).1 = Raise (ValueError (lit "Todo text required"))) /\
  (__init__ some_id (replicate 201 65%N) pending 0%Z None 0%Z
     = Raise (ValueError (lit "Todo text too long (max 200 characters)")) /\
   (create (replicate 201 65%N) frozen_world).1
     = Raise (ValueError (lit "Todo text too long (max 200 characters)"))).
Proof.
  split.
  - apply (todo_error_messages some_id [] pending 0%Z None 0%Z frozen_world).
    vm_compute. lia.
  - apply (todo_error_messages some_id (replicate 201 65%N) pending 0%Z None
             0%Z frozen_world).
    vm_compute. lia.
Defined.

(** *** The id of a created Todo *)

Lemma hexdigit_not_hyphen d : (d < 16)%N -> (hexdigit d =? 45)%N = false.
Proof.
  intros Hd. unfold hexdigit. apply N.eqb_neq.
  destruct (N.ltb_spec d 10); lia.
Qed.

Lemma uuid_str_length u : len (uuid_str u) = 36.
Proof. reflexivity. Qed.

Lemma uuid_str_hyphens u : count 45%N (uuid_str u) = 4.
Proof.
  unfold uuid_str, hex32.
  cbn [seq map take drop app hyphen lit N_of_ascii count].
  rewrite !hexdigit_not_hyphen by apply nibble_lt.
  reflexivity.
Qed.

(** X2: Whatever the text and the world, the id of a Todo that [Todo.create]
    returns has 36 characters, four of them hyphens: what
    [test_todo_factory_creates_with_uuid] asserts for one text. *)
Theorem created_id_format (x : str) (w : World) (t : Todo) (w' : World) :
  create x w = (Ok t, w') ->
  len (id t) = 36 /\ count 45%N (id t) = 4.
Proof.
  rewrite create_unfold. intros [= H _].
  apply init_inv in H as [-> _]. cbn [id].
  split; [apply uuid_str_length|apply uuid_str_hyphens].
Qed.

Lemma created_id_format_witness :
  len (id (mkTodo (uuid_str 0) (lit "Buy groceries") pending 0%Z None 0%Z)) = 36 /\
  count 45%N
    (id (mkTodo (uuid_str 0) (lit "Buy groceries") pending 0%Z None 0%Z)) = 4.
Proof.
  apply (created_id_format (lit "Buy groceries") frozen_world _
           (mkWorld (fun _ => 0%Z) 1 (fun _ => 0%N) 1)).
  reflexivity.
Defined.

(** *** Timestamps *)

(** X3: With a clock that does not run backwards, the creation and update
    times of a created Todo lie between a clock reading taken just before
    [Todo.create] and one taken just after: the assertions of
    [test_todo_factory_sets_timestamps], for every text and world. *)
Theorem created_between_clock_reads (x : str) (w : World)
    (before after : datetime) (t : Todo) (w' : World) :
  monotone w ->
  timed_create x w = (before, Ok t, after, w') ->
  (before <= created_at t <= after)%Z /\
  (before <= updated_at t <= after)%Z.
Proof.
  intros Hmono. unfold timed_create, datetime_now.
  rewrite create_unfold. cbn [clock clock_reads uuid_source uuid_draws].
  intros [= <- H <- _]. apply init_inv in H as [-> _].
  cbn [created_at updated_at].
  pose proof (Hmono (clock_reads w) (S (clock_reads w))).
  pose proof (Hmono (S (clock_reads w)) (S (S (clock_reads w)))).
  lia.
Qed.

Lemma counting_world_monotone : monotone counting_world.
Proof. intros j k Hjk. simpl. lia. Qed.

Lemma created_between_clock_reads_witness :
  (0 <= created_at (mkTodo (uuid_str 0) (lit "Buy groceries") pending 1%Z None 1%Z)
     <= 2)%Z /\
  (0 <= updated_at (mkTodo (uuid_str 0) (lit "Buy groceries") pending 1%Z None 1%Z)
     <= 2)%Z.
Proof.
  apply (created_between_clock_reads (lit "Buy groceries") counting_world
           0%Z 2%Z _
           (mkWorld (fun k => Z.of_nat k) 3 (fun k => N.of_nat k) 1)
           counting_world_monotone).
  reflexivity.
Defined.

(** *** Distinct ids *)

Lemma digits_of_uuid_str u : digits_of (uuid_str u) = hex32 u.
Proof. reflexivity. Qed.

Lemma hexdigit_inj a b :
  (a < 16)%N -> (b < 16)%N -> hexdigit a = hexdigit b -> a = b.
Proof.
  unfold hexdigit. intros Ha Hb.
  destruct (N.ltb_spec a 10), (N.ltb_spec b 10); lia.
Qed.

Lemma hex32_nibbles u v i :
  hex32 u = hex32 v -> i < 32 -> nibble u i = nibble v i.
Proof.
  unfold hex32. intros H Hi.
  apply hexdigit_inj; [apply nibble_lt..|].
  apply (proj1 map_ext_in_iff H i).
  apply in_seq. lia.
Qed.

Lemma testbit_15 k : (k < 4)%N -> N.testbit 15 k = true.
Proof.
  intros Hk.
  assert (k = 0 \/ k = 1 \/ k = 2 \/ k = 3)%N as [->|[->|[->| ->]]] by lia;
    reflexivity.
Qed.

(** Bit [k] of the nibble at offset [31 - q] is bit [k + 4 q] of the value. *)
Lemma testbit_nibble u q k :
  q < 32 -> (k < 4)%N ->
  N.testbit (nibble u (31 - q)) k = N.testbit u (k + 4 * N.of_nat q).
Proof.
  intros Hq Hk. unfold nibble.
  rewrite N.land_spec, testbit_15, andb_true_r by done.
  rewrite N.shiftr_spec by lia.
  do 3 f_equal. lia.
Qed.

Lemma nibbles_determine u v :
  (u < 2 ^ 128)%N -> (v < 2 ^ 128)%N ->
  (forall i, i < 32 -> nibble u i = nibble v i) -> u = v.
Proof.
  intros Hu Hv Hnib. apply N.bits_inj. intros n.
  destruct (N.lt_ge_cases n 128) as [Hn|Hn].
  - pose proof (N.div_mod n 4 ltac:(done)) as Hdiv.
    pose proof (N.mod_lt n 4 ltac:(done)) as Hmod.
    assert (Hq : (n / 4 < 32)%N) by (apply N.Div0.div_lt_upper_bound; lia).
    rewrite Hdiv.
    replace (4 * (n / 4) + n mod 4)%N
      with (n mod 4 + 4 * N.of_nat (N.to_nat (n / 4)))%N by lia.
    rewrite <- !testbit_nibble by lia.
    by rewrite Hnib by lia.
  - rewrite <- (N.mod_small u (2 ^ 128)), <- (N.mod_small v (2 ^ 128)) by done.
    by rewrite !N.mod_pow2_bits_high.
Qed.

Lemma uuid_str_inj u v :
  (u < 2 ^ 128)%N -> (v < 2 ^ 128)%N -> uuid_str u = uuid_str v -> u = v.
Proof.
  intros Hu Hv H. apply nibbles_determine; [done..|].
  intros i Hi. apply hex32_nibbles; [|done].
  by rewrite <- !digits_of_uuid_str, H.
Qed.

(** X4: Two creations in a row give different ids whenever the generator's two
    draws are different 128-bit values: the string of a UUID determines
    the UUID. *)
Theorem created_ids_differ (x y : str) (w w1 w2 : World) (t1 t2 : Todo) :
  (uuid_source w (uuid_draws w) < 2 ^ 128)%N ->
  (uuid_source w (S (uuid_draws w)) < 2 ^ 128)%N ->
  uuid_source w (uuid_draws w) <> uuid_source w (S (uuid_draws w)) ->
  create x w = (Ok t1, w1) -> create y w1 = (Ok t2, w2) ->
  id t1 <> id t2.
Proof.
  intros Hu Hv Hne H1 H2.
  destruct (create_twice_draws _ _ _ _ _ _ _ H1 H2) as [-> ->].
  intros Heq. by apply Hne, uuid_str_inj.
Qed.

Lemma created_ids_differ_witness :
  id (mkTodo (uuid_str 0) (lit "a") pending 0%Z None 0%Z)
  <> id (mkTodo (uuid_str 1) (lit "b") pending 1%Z None 1%Z).
Proof.
  apply (created_ids_differ (lit "a") (lit "b") counting_world
           (mkWorld (fun k => Z.of_nat k) 1 (fun k => N.of_nat k) 1)
           (mkWorld (fun k => Z.of_nat k) 2 (fun k => N.of_nat k) 2)).
  - vm_compute. reflexivity.
  - vm_compute. reflexivity.
  - vm_compute. discriminate.
  - reflexivity.
  - reflexivity.
Defined.

End TodoTestFacts.

(** ** The frame of the system prompt *)

Module PromptFrameFacts.
Import Prompt PromptFrame PromptFacts.

(** X5: The prompt is a fixed text with two holes: it depends on the clock
    only through the formatted date and the formatted time, which stand
    right after "Today's date is: " and "Current time is: "; around them
    are 2820 characters that never change. *)
Theorem prompt_frame (strftime : datetime -> str -> str) (now : datetime) :
  get_system_prompt strftime now
    = fixed_head ++ strftime now date_format ++
      fixed_middle ++ strftime now time_format ++ fixed_tail /\
  len (get_system_prompt strftime now)
    = 2820 + len (strftime now date_format) + len (strftime now time_format).
Proof.
  assert (Heq : get_system_prompt strftime now
    = fixed_head ++ strftime now date_format ++
      fixed_middle ++ strftime now time_format ++ fixed_tail).
  { unfold get_system_prompt, fixed_head, fixed_middle, fixed_tail.
    cbn [app].
    rewrite join_lines_app; [|by unfold lines_before_date|done].
    rewrite !join_lines_cons; [|by unfold lines_after_time|done].
    by rewrite <- !app_assoc. }
  split; [exact Heq|]. rewrite Heq. unfold len.
  rewrite !length_app.
  change (length fixed_head) with 329.
  change (length fixed_middle) with 20.
  change (length fixed_tail) with 2471.
  lia.
Qed.

(** X6: Whatever the clock reads, the prompt tells, each on a line of its own,
    to ask for confirmation once, not to ask again and not to list the
    tasks again after a confirmation, and to pass the "full_id" value to
    the delete, complete and update tools. *)
Theorem prompt_workflow_instructions
    (strftime : datetime -> str -> str) (now : datetime) :
  has_line (get_system_prompt strftime now) (fun l => l = ask_once) /\
  has_line (get_system_prompt strftime now) (fun l => l = no_second_question) /\
  has_line (get_system_prompt strftime now) (fun l => l = no_second_listing) /\
  has_line (get_system_prompt strftime now) (fun l => l = use_full_id).
Proof.
  split; [|split; [|split]].
  - eapply (has_line_prompt _ _ _ 12); [reflexivity| | |reflexivity];
      vm_compute; reflexivity.
  - eapply (has_line_prompt _ _ _ 15); [reflexivity| | |reflexivity];
      vm_compute; reflexivity.
  - eapply (has_line_prompt _ _ _ 16); [reflexivity| | |reflexivity];
      vm_compute; reflexivity.
  - eapply (has_line_prompt _ _ _ 21); [reflexivity| | |reflexivity];
      vm_compute; reflexivity.
Qed.

End PromptFrameFacts.

(** ** Several tool invocations under one context *)

Module ToolRunFacts.
Import Tools ToolsFacts ToolRuns.

Section Facts.

Context {Session UUID Exc Store : Type}.
Variable handlers :
  Call Session UUID -> Store -> (list TextContent + Exc) * Store.

Abbreviation World := (World Session UUID Store).
Abbreviation Ctx := (RunContextWrapper Session UUID).

Lemma run_tools_calls (ctx : Ctx) (rs : list Request) : forall w : World,
  calls (run_tools handlers ctx rs w).2 = calls w ++ map (forwarded ctx) rs /\
  length (run_tools handlers ctx rs w).1 = length rs.
Proof.
  induction rs as [|r rest IH]; intros w; simpl.
  - by rewrite app_nil_r.
  - pose proof (run_tool_unfold handlers ctx r w) as Hr.
    destruct (run_tool handlers ctx r w) as [out w1].
    specialize (IH w1).
    destruct (run_tools handlers ctx rest w1) as [outs w2].
    simpl in *. destruct IH as [-> ->].
    injection Hr as _ ->. simpl. by rewrite <- app_assoc.
Qed.

(** X11: However many requests an agent run serves under one context, the
    handler calls made are exactly the requests' calls, one per request
    and in the order of the requests, after the calls made before; every
    one of them carries the session and the user id of that context. *)
Theorem run_tools_scoped (ctx : Ctx) (rs : list Request) (w : World) :
  calls (run_tools handlers ctx rs w).2 = calls w ++ map (forwarded ctx) rs /\
  length (run_tools handlers ctx rs w).1 = length rs /\
  Forall (fun c => call_user c = user_id (context ctx) /\
                   call_session c = session (context ctx))
         (map (forwarded ctx) rs).
Proof.
  destruct (run_tools_calls ctx rs w) as [Hcalls Hlen].
  split; [exact Hcalls|]. split; [exact Hlen|].
  apply Forall_forall. intros c Hc.
  apply list_elem_of_In, in_map_iff in Hc as (r & <- & _).
  destruct (forwarded_scope ctx r). done.
Qed.


(** X13: Of several content items only the first counts: the tool returns its
    text, and [tool_list_tasks] and [tool_delete_task] print that text in
    their response line. *)
Theorem tool_reads_first_item_only (ctx : Ctx) (r : Request) (w : World)
    (first : TextContent) (others : list TextContent) :
  (handlers (forwarded ctx r) (store w)).1 = inl (first :: others) ->
  (run_tool handlers ctx r w).1 = inl (text first) /\
  stdout (run_tool handlers ctx r w).2
    = stdout w ++
      match r with
      | ListReq _ => [lit "[DEBUG] tool_list_tasks response: " ++ text first]
      | DeleteReq task_id =>
          [lit "[DEBUG] tool_delete_task called with task_id: " ++ task_id;
           lit "[DEBUG] tool_delete_task response: " ++ text first]
      | _ => []
      end.
Proof.
  intros Hres. rewrite run_tool_unfold. simpl. rewrite Hres. simpl.
  split; [done|]. by destruct r.
Qed.

End Facts.


Lemma tool_reads_first_item_only_witness :
  (run_tool two_item_handlers alice (ListReq (lit "all")) alice_world).1
    = inl (lit "first") /\
  stdout (run_tool two_item_handlers alice (ListReq (lit "all")) alice_world).2
    = [] ++ [lit "[DEBUG] tool_list_tasks response: " ++ lit "first"].
Proof.
  apply (tool_reads_first_item_only two_item_handlers alice
           (ListReq (lit "all")) alice_world
           (mkTextContent (lit "first")) [mkTextContent (lit "second")]).
  reflexivity.
Defined.

End ToolRunFacts.

(** ** Provider, client and configuration *)

Module AgentConfigFacts.
Import Config ConfigFacts AgentConfigModel.

Lemma get_or_empty_iff (env : environ) name default :
  default <> [] -> (get_or env name default = [] <-> get env name = Some []).
Proof.
  intros Hd. unfold get_or. destruct (get env name) as [v|].
  - split; [by intros ->|by intros [= ->]].
  - split; [done|discriminate].
Qed.

Section Facts.

Variable lower : str -> str.

(** X14: The detected provider is never the empty string: it is the lowercased
    AI_PROVIDER when that is not empty, and "gemini" or "openai"
    otherwise. *)
Theorem detected_provider_range (env : environ) :
  _detect_provider lower env <> [] /\
  (_detect_provider lower env = lower (get_or env AI_PROVIDER []) \/
   _detect_provider lower env = gemini \/
   _detect_provider lower env = openai).
Proof.
  unfold _detect_provider.
  destruct (truthy (lower (get_or env AI_PROVIDER []))) eqn:E.
  - split; [by apply truthy_true|by left].
  - destruct (truthy_opt (get env GEMINI_API_KEY)); [split; [done|by right; left]|].
    destruct (truthy_opt (get env OPENAI_API_KEY)); split;
      (done || (by right; right) || (by right; left)).
Qed.

Lemma api_client_cases (env : environ) :
  get_api_client lower env =
    match get env (key_variable (_detect_provider lower env)) with
    | Some key =>
        if truthy key then
          Ok (mkAsyncOpenAI key
                (if str_eqb (_detect_provider lower env) gemini
                 then Some GEMINI_BASE_URL else None))
        else Raise (AgentConfigError (key_message (_detect_provider lower env)))
    | None => Raise (AgentConfigError (key_message (_detect_provider lower env)))
    end.
Proof.
  unfold get_api_client, key_variable, key_message.
  by destruct (str_eqb (_detect_provider lower env) gemini).
Qed.

(** X15: Of the two API keys [get_api_client] looks at one only, the key
    of the selected provider (GEMINI_API_KEY for "gemini", OPENAI_API_KEY
    for anything else).  A client it returns carries that variable's value, which is
    not empty, and Gemini's base URL exactly for "gemini"; when that
    variable is not set it raises [AgentConfigError] with the message
    naming that variable, whatever other key is set. *)
Theorem api_client_uses_selected_key (env : environ) :
  (forall c, get_api_client lower env = Ok c ->
     get env (key_variable (_detect_provider lower env)) = Some (api_key c) /\
     api_key c <> [] /\
     base_url c = if str_eqb (_detect_provider lower env) gemini
                  then Some GEMINI_BASE_URL else None) /\
  (~ is_set env (key_variable (_detect_provider lower env)) ->
     get_api_client lower env
     = Raise (AgentConfigError (key_message (_detect_provider lower env)))).
Proof.
  rewrite api_client_cases. split.
  - intros c.
    destruct (get env (key_variable (_detect_provider lower env))) as [key|];
      [|done].
    destruct (truthy key) eqn:E; [|done].
    intros [= <-]. simpl. by apply truthy_true in E.
  - intros Hunset. apply truthy_opt_false in Hunset.
    destruct (get env (key_variable (_detect_provider lower env))) as [key|];
      [|done].
    simpl in Hunset. by rewrite Hunset.
Qed.

(** Lowercasing maps the empty string, and only it, to the empty string. *)
Hypothesis lower_nil : forall s, lower s = [] <-> s = [].

(** X16: Without AI_PROVIDER, auto-detection never selects a provider whose key
    is missing while the other one's is there: as soon as one of the two
    keys is set [get_api_client] returns a client, with the Gemini key and
    base URL if GEMINI_API_KEY is set and with the OpenAI key otherwise. *)
Theorem auto_detection_finds_a_key (env : environ) :
  ~ is_set env AI_PROVIDER ->
  is_set env GEMINI_API_KEY \/ is_set env OPENAI_API_KEY ->
  exists c,
    get_api_client lower env = Ok c /\
    (is_set env GEMINI_API_KEY ->
       get env GEMINI_API_KEY = Some (api_key c) /\
       base_url c = Some GEMINI_BASE_URL) /\
    (~ is_set env GEMINI_API_KEY ->
       get env OPENAI_API_KEY = Some (api_key c) /\ base_url c = None).
Proof using lower_nil.
  intros Hp Hkeys. rewrite api_client_cases, (detect_auto lower lower_nil env Hp).
  destruct (truthy_opt (get env GEMINI_API_KEY)) eqn:Eg.
  - change (key_variable gemini) with GEMINI_API_KEY.
    change (str_eqb gemini gemini) with true.
    destruct (get env GEMINI_API_KEY) as [key|] eqn:Ek; [|done]. simpl in Eg.
    rewrite Eg. eexists. split; [reflexivity|]. simpl.
    split; [done|]. intros Hno. exfalso. apply Hno. exists key.
    split; [exact Ek|]. by apply truthy_true.
  - apply truthy_opt_false in Eg. destruct Hkeys as [Hg|Ho]; [done|].
    pose proof Ho as Ho'. apply truthy_opt_true in Ho'. rewrite Ho'.
    change (key_variable openai) with OPENAI_API_KEY.
    change (str_eqb openai gemini) with false.
    destruct (get env OPENAI_API_KEY) as [key|]; [|done]. simpl in Ho'.
    rewrite Ho'. eexists. split; [reflexivity|]. simpl.
    split; [done|done].
Qed.

Variable float : Type.
Variable default_temperature : float.

(** X17: [AgentConfig()] has the detected provider and the default model of
    that provider; its model is empty exactly when the variable naming
    the model (GEMINI_MODEL or OPENAI_MODEL) is present with an empty
    value, which [__post_init__] then keeps. *)
Theorem default_config_model (env : environ) :
  provider (default_config lower default_temperature env)
    = _detect_provider lower env /\
  model (default_config lower default_temperature env)
    = _get_default_model lower env /\
  (model (default_config lower default_temperature env) = [] <->
   get env (model_variable (_detect_provider lower env)) = Some []).
Proof.
  assert (Hm : model (default_config lower default_temperature env)
               = _get_default_model lower env) by reflexivity.
  split; [reflexivity|]. split; [exact Hm|]. rewrite Hm.
  unfold _get_default_model, model_variable.
  destruct (str_eqb (_detect_provider lower env) gemini);
    by apply get_or_empty_iff.
Qed.

(** X18: A provider given to [AgentConfig] is kept, but the default model is
    still chosen by detection from the environment, not by that
    provider. *)
Theorem explicit_provider_keeps_detected_model (env : environ)
    (n : Z) (t : float) (h : Z) (p : str) :
  p <> [] ->
  provider (__init__ lower env [] n t h p) = p /\
  model (__init__ lower env [] n t h p) = _get_default_model lower env.
Proof.
  intros Hp. apply truthy_true in Hp.
  unfold __init__, __post_init__. simpl. by rewrite Hp.
Qed.


End Facts.

Lemma api_client_uses_selected_key_witness :
  (get env_gemini_only GEMINI_API_KEY = Some (lit "g-test") /\
   lit "g-test" <> [] /\
   Some GEMINI_BASE_URL = Some GEMINI_BASE_URL) /\
  get_api_client ascii_lower env_explicit
  = Raise (AgentConfigError msg_openai_key).
Proof.
  split.
  - destruct (api_client_uses_selected_key ascii_lower env_gemini_only) as [H _].
    apply (H (mkAsyncOpenAI (lit "g-test") (Some GEMINI_BASE_URL))).
    vm_compute. reflexivity.
  - destruct (api_client_uses_selected_key ascii_lower env_explicit) as [_ H].
    apply H. intros (v & Hv & _). vm_compute in Hv. discriminate.
Defined.

Lemma auto_detection_finds_a_key_witness :
  exists c,
    get_api_client ascii_lower env_openai_only = Ok c /\
    (is_set env_openai_only GEMINI_API_KEY ->
       get env_openai_only GEMINI_API_KEY = Some (api_key c) /\
       base_url c = Some GEMINI_BASE_URL) /\
    (~ is_set env_openai_only GEMINI_API_KEY ->
       get env_openai_only OPENAI_API_KEY = Some (api_key c) /\
       base_url c = None).
Proof.
  apply (auto_detection_finds_a_key ascii_lower ascii_lower_nil env_openai_only).
  - intros (v & Hv & _). vm_compute in Hv. discriminate.
  - right. exists (lit "sk-test"). split; [vm_compute; reflexivity|discriminate].
Defined.

Lemma explicit_provider_keeps_detected_model_witness :
  provider (__init__ ascii_lower env_gemini_only [] 1024 tt 50 openai) = openai /\
  model (__init__ ascii_lower env_gemini_only [] 1024 tt 50 openai)
    = _get_default_model ascii_lower env_gemini_only.
Proof.
  apply (explicit_provider_keeps_detected_model ascii_lower unit
           env_gemini_only 1024 tt 50 openai).
  discriminate.
Defined.

(** In that run the provider is "openai" and the model "gemini-2.5-flash". *)
Example explicit_provider_mismatch :
  model (__init__ ascii_lower env_gemini_only [] 1024 tt 50 openai)
  = lit "gemini-2.5-flash".
Proof. vm_compute. reflexivity. Qed.

(** An empty GEMINI_MODEL leaves the default configuration without model. *)
Example default_config_empty_model :
  model (default_config ascii_lower tt env_empty_model) = [].
Proof. vm_compute. reflexivity. Qed.

End AgentConfigFacts.
